(** * Qwt: curve renderer and column symbols

    A shallow embedding of [qwt_plot_curve.cpp] (the curve renderer
    [QwtPlotCurve]) and of the column symbol source ([QwtColumnSymbol]),
    with the properties of their drawing code.

    Conventions of the embedding.
    - A C++ [int] is a [Z]: the indices that the renderer computes with are
      those of a verified interval, which lies inside the series.
    - A C++ [double] (Qt's [qreal]) is a canonical rational [Qc] in the
      drawing code: arithmetic is exact; rounding, infinities and NaN are
      outside the model.  Where the code decides by comparing [double]s
      ([closestPoint], [setBaseline]) it is modelled in module [Binary64],
      with a [double] as a binary64 number.
    - A [QPainter] is observed through the sequence of requests it receives:
      every drawing function returns the list of its [PaintOp]s, in order.
    - An array written by index ([QPolygonF::data()]) is a list updated with
      [<[i:=v]>]. *)

From Stdlib Require Import ZArith QArith Qcanon Lia Lqa String.
From Stdlib Require Floats Uint63.
From stdpp Require Import base decidable list numbers strings.

Local Open Scope Z_scope.

(** ** Numbers *)

Abbreviation int := Z (only parsing).
Abbreviation double := Qc (only parsing).

(** The conversion of an [int] to a [double]. *)
Definition double_of_int (z : int) : double := Q2Qc (inject_Z z).

(** The conversion [int(d)] of a [double]: truncation towards zero, for a
    value between the bounds of [int]; outside them the conversion of the
    source is undefined. *)
Definition int_of_double (d : double) : int :=
  Z.quot (Qnum (this d)) (Zpos (Qden (this d))).

Definition ltb (a b : double) : bool := bool_decide (a < b)%Qc.
Definition eqb (a b : double) : bool := bool_decide (a = b).

Declare Scope double_scope.
Delimit Scope double_scope with D.
Infix "<?" := ltb : double_scope.
Infix "=?" := eqb : double_scope.
Infix "+" := Qcplus : double_scope.
Infix "-" := Qcminus : double_scope.
Infix "*" := Qcmult : double_scope.
Infix "/" := Qcdiv : double_scope.
Notation "- x" := (Qcopp x) : double_scope.
Notation "0" := (double_of_int 0) : double_scope.
Notation "1" := (double_of_int 1) : double_scope.
Notation "2" := (double_of_int 2) : double_scope.

(** Qt's [qMin] and [qRound] (qglobal.h), and [qwtSqr] (qwt_math.h). *)
Definition qMin (a b : double) : double := if (a <? b)%D then a else b.

Definition qRound (d : double) : int :=
  if (d <? 0)%D
  then int_of_double (d - double_of_int (int_of_double (d - 1)) + 1 / 2)%D
       + int_of_double (d - 1)%D
  else int_of_double (d + 1 / 2)%D.

Definition qwtSqr (x : double) : double := (x * x)%D.

(** Modelled from the spec: [qwtLim] of qwt_math.h, which is not among the
    sources; it clamps its first argument into the interval given by the
    other two. *)
Definition qwtLim (x x1 x2 : int) : int :=
  let lower := Z.min x1 x2 in
  let upper := Z.max x1 x2 in
  if x <? lower then lower else if upper <? x then upper else x.

(** [for (i = from; i <= to; i++) s = body(i, s)]: the loop runs
    [to - from + 1] times when that is positive, and not at all otherwise. *)
Fixpoint for_range {S : Type} (n : nat) (i : int) (body : int -> S -> S) (s : S) : S :=
  match n with
  | O => s
  | Datatypes.S n' => for_range n' (i + 1) body (body i s)
  end.

Definition for_loop {S : Type} (from to : int) (body : int -> S -> S) (s : S) : S :=
  for_range (Z.to_nat (to - from + 1)) from body s.

(** ** Qt value types *)

Record QPointF := mkQPointF { px : double; py : double }.
Record QPoint := mkQPoint { ipx : int; ipy : int }.
Record QSizeF := mkQSizeF { wd : double; ht : double }.

(** [QRectF] keeps its top-left corner and its size. *)
Record QRectF := mkQRectF { xp : double; yp : double; w : double; h : double }.

(** [QRect] keeps two corners; it is empty when they are out of order. *)
Record QRect := mkQRect { x1 : int; y1 : int; x2 : int; y2 : int }.

#[global] Instance QPointF_eq_dec : EqDecision QPointF.
Proof. solve_decision. Defined.
#[global] Instance QSizeF_eq_dec : EqDecision QSizeF.
Proof. solve_decision. Defined.
#[global] Instance QRectF_eq_dec : EqDecision QRectF.
Proof. solve_decision. Defined.
#[global] Instance QPointF_inhabited : Inhabited QPointF :=
  populate (mkQPointF 0%D 0%D).

Abbreviation QPolygonF := (list QPointF) (only parsing).

Module Rect.
Definition left (r : QRectF) : double := xp r.
Definition top (r : QRectF) : double := yp r.
Definition right (r : QRectF) : double := (xp r + w r)%D.
Definition bottom (r : QRectF) : double := (yp r + h r)%D.
Definition width (r : QRectF) : double := w r.
Definition height (r : QRectF) : double := h r.
Definition topLeft (r : QRectF) : QPointF := mkQPointF (xp r) (yp r).
Definition topRight (r : QRectF) : QPointF := mkQPointF (xp r + w r)%D (yp r).
Definition bottomLeft (r : QRectF) : QPointF := mkQPointF (xp r) (yp r + h r)%D.
Definition bottomRight (r : QRectF) : QPointF :=
  mkQPointF (xp r + w r)%D (yp r + h r)%D.
Definition center (r : QRectF) : QPointF :=
  mkQPointF (xp r + w r / 2)%D (yp r + h r / 2)%D.

Definition isValid (r : QRectF) : bool := (0 <? w r)%D && (0 <? h r)%D.
Definition isEmpty (r : QRectF) : bool := negb (isValid r).

(** [adjust(dx1, dy1, dx2, dy2)] adds the offsets to the left, top, right
    and bottom edge. *)
Definition adjusted (dx1 dy1 dx2 dy2 : double) (r : QRectF) : QRectF :=
  mkQRectF (xp r + dx1)%D (yp r + dy1)%D
           (w r + (dx2 - dx1))%D (h r + (dy2 - dy1))%D.

Definition setSize (s : QSizeF) (r : QRectF) : QRectF :=
  mkQRectF (xp r) (yp r) (wd s) (ht s).

Definition moveCenter (p : QPointF) (r : QRectF) : QRectF :=
  mkQRectF (px p - w r / 2)%D (py p - h r / 2)%D (w r) (h r).

(** The closed polygon of a rectangle: its four corners clockwise, starting
    and ending at the top-left one. *)
Definition toPolygon (r : QRectF) : QPolygonF :=
  [topLeft r; topRight r; bottomRight r; bottomLeft r; topLeft r].

(** The conversion of an integer [QRect]. *)
Definition ofQRect (r : QRect) : QRectF :=
  mkQRectF (double_of_int (x1 r)) (double_of_int (y1 r))
           (double_of_int (x2 r - x1 r + 1)) (double_of_int (y2 r - y1 r + 1)).

Definition isEmptyQRect (r : QRect) : bool := (x2 r <? x1 r) || (y2 r <? y1 r).
End Rect.

(** Colours, pens and brushes, as far as the renderers look into them. *)
Record QColor := mkQColor { isValid : bool; rgb : int }.

Inductive PenStyle := NoPen | SolidLine | DashLine.
Inductive BrushStyle := NoBrush | SolidPattern | Dense4Pattern.

Record QPen := mkQPen { penStyle : PenStyle; penColor : QColor; penWidth : double }.
Record QBrush := mkQBrush { brushStyle : BrushStyle; brushColor : QColor }.

Definition black : QColor := mkQColor true 0.

(** [QPen(Qt::PenStyle)], [QPen(const QColor &)], [QBrush()] and
    [QBrush(const QColor &)]. *)
Definition QPen_of_style (s : PenStyle) : QPen := mkQPen s black 0%D.
Definition QPen_of_color (c : QColor) : QPen := mkQPen SolidLine c 0%D.
Definition QBrush_default : QBrush := mkQBrush NoBrush black.
Definition QBrush_of_color (c : QColor) : QBrush := mkQBrush SolidPattern c.
Definition setColor (c : QColor) (b : QBrush) : QBrush := mkQBrush (brushStyle b) c.

#[global] Instance QColor_eq_dec : EqDecision QColor.
Proof. solve_decision. Defined.
#[global] Instance PenStyle_eq_dec : EqDecision PenStyle.
Proof. solve_decision. Defined.
#[global] Instance BrushStyle_eq_dec : EqDecision BrushStyle.
Proof. solve_decision. Defined.
#[global] Instance QPen_eq_dec : EqDecision QPen.
Proof. solve_decision. Defined.
#[global] Instance QBrush_eq_dec : EqDecision QBrush.
Proof. solve_decision. Defined.

(** The point symbol of a curve ([QwtSymbol]): the renderer reads its style,
    brush, pen and size and asks it to draw itself into a rectangle. *)
Inductive SymbolStyle := NoSymbol | Ellipse | Cross.

Record QwtSymbol := mkQwtSymbol {
  symStyle : SymbolStyle;
  symBrush : QBrush;
  symPen : QPen;
  symSize : QSizeF
}.

#[global] Instance SymbolStyle_eq_dec : EqDecision SymbolStyle.
Proof. solve_decision. Defined.
#[global] Instance QwtSymbol_eq_dec : EqDecision QwtSymbol.
Proof. solve_decision. Defined.

(** ** The painter *)

Inductive PaintOp :=
| Save
| Restore
| SetPen (pen : QPen)
| SetBrush (brush : QBrush)
| DrawLine (p1 p2 : QPointF)
| DrawPoint (p : QPointF)
| DrawPolyline (pa : QPolygonF)
| DrawPolygon (pa : QPolygonF)
| FillRect (r : QRectF) (brush : QBrush)
| DrawSymbol (s : QwtSymbol) (r : QRectF).

#[global] Instance PaintOp_eq_dec : EqDecision PaintOp.
Proof. solve_decision. Defined.

(** What the renderers read from a painter: its window. *)
Record QPainter := mkQPainter { window : QRect }.

(** ** The curve renderer (qwt_plot_curve.cpp) *)

Module PlotCurve.

Inductive CurveStyle := NoCurve | Lines | Sticks | Steps | Dots.
Inductive Orientation := Horizontal | Vertical.

#[global] Instance CurveStyle_eq_dec : EqDecision CurveStyle.
Proof. solve_decision. Defined.
#[global] Instance Orientation_eq_dec : EqDecision Orientation.
Proof. solve_decision. Defined.

(** Modelled from the spec: the attribute enumerations of qwt_plot_curve.h,
    which is not among the sources.  Each set of attributes is a set of
    OR-combined flags, one bit per flag; the properties below depend on the
    flags of one set being distinct bits, not on their values. *)
Definition Inverted : int := 1.
Definition Fitted : int := 2.
Definition ClipPolygons : int := 1.
Definition LegendShowLine : int := 1.
Definition LegendShowSymbol : int := 2.
Definition LegendShowBrush : int := 4.

(** [flags & flag], read as a condition. *)
Definition testFlag (flags flag : int) : bool := negb (Z.land flags flag =? 0).

(** The collaborators: an axis scale map, a curve fitter, and the plot that
    hands out the scale maps of its axes. *)
Record QwtScaleMap := mkQwtScaleMap { transform : double -> double }.
Record QwtCurveFitter := mkQwtCurveFitter { fitCurve : QPolygonF -> QPolygonF }.
Record QwtPlot := mkQwtPlot { canvasMap : int -> QwtScaleMap }.

(** The curve: the fields of [PrivateData], then what the renderer reads
    from its base classes (the series, the orientation, the plot the
    curve is attached to and its two axes).  A pointer that may be null
    is an [option]. *)
Record QwtPlotCurve := mkQwtPlotCurve {
  style : CurveStyle;
  reference : double;
  symbol : QwtSymbol;
  curveFitter : option QwtCurveFitter;
  pen : QPen;
  brush : QBrush;
  attributes : int;
  paintAttributes : int;
  legendAttributes : int;
  d_series : list QPointF;
  orientation : Orientation;
  plot : option QwtPlot;
  xAxis : int;
  yAxis : int
}.

Definition dataSize (c : QwtPlotCurve) : int := Z.of_nat (length (d_series c)).

(** [d_series->sample(i)]; the renderer only asks for indices of the
    series. *)
Definition sample (c : QwtPlotCurve) (i : int) : QPointF :=
  d_series c !!! Z.to_nat i.

Definition testCurveAttribute (c : QwtPlotCurve) (attribute : int) : bool :=
  testFlag (attributes c) attribute.

(** [verifyRange] returns the number of points and stores the verified
    indices through its two reference arguments. *)
Definition verifyRange (size i1 i2 : int) : int * (int * int) :=
  if size <? 1 then (0, (i1, i2))
  else
    let i1 := qwtLim i1 0 (size - 1) in
    let i2 := qwtLim i2 0 (size - 1) in
    let '(i1, i2) := if i2 <? i1 then (i2, i1) else (i1, i2) in
    (i2 - i1 + 1, (i1, i2)).


Definition closePolyline (c : QwtPlotCurve) (xMap yMap : QwtScaleMap)
    (polygon : QPolygonF) : QPolygonF :=
  if Z.of_nat (length polygon) <? 2 then polygon
  else
    match orientation c with
    | Vertical =>
        let refY := transform yMap (reference c) in
        let polygon := polygon ++ [mkQPointF (px (List.last polygon inhabitant)) refY] in
        polygon ++ [mkQPointF (px (List.hd inhabitant polygon)) refY]
    | Horizontal =>
        let refX := transform xMap (reference c) in
        let polygon := polygon ++ [mkQPointF refX (py (List.last polygon inhabitant))] in
        polygon ++ [mkQPointF refX (py (List.hd inhabitant polygon))]
    end.

Definition fillCurve (c : QwtPlotCurve) (xMap yMap : QwtScaleMap)
    (polygon : QPolygonF) : list PaintOp :=
  if bool_decide (brushStyle (brush c) = NoBrush) then []
  else
    let polygon := closePolyline c xMap yMap polygon in
    if Z.of_nat (length polygon) <=? 2 then []
    else
      let b := brush c in
      let b := if isValid (brushColor b) then b else setColor (penColor (pen c)) b in
      [Save; SetPen (QPen_of_style NoPen); SetBrush b; DrawPolygon polygon; Restore].

(** The device point of sample [i]. *)
Definition transformed (c : QwtPlotCurve) (xMap yMap : QwtScaleMap) (i : int)
  : QPointF :=
  let s := sample c i in
  mkQPointF (transform xMap (px s)) (transform yMap (py s)).

Section Drawing.
(** [QwtClipper::clipPolygonF], a collaborator. *)
Variable clipPolygonF : QRectF -> QPolygonF -> QPolygonF.

Definition clipped (c : QwtPlotCurve) (painter : QPainter) (pa : QPolygonF)
  : QPolygonF :=
  if testFlag (paintAttributes c) ClipPolygons
  then clipPolygonF (Rect.ofQRect (window painter)) pa
  else pa.

Definition drawLines (c : QwtPlotCurve) (painter : QPainter)
    (xMap yMap : QwtScaleMap) (from to : int) : list PaintOp :=
  let size := to - from + 1 in
  if size <=? 0 then []
  else
    let polyline := replicate (Z.to_nat size) (mkQPointF 0 0)%D in
    let polyline :=
      for_loop from to
        (fun i points =>
           let s := sample c i in
           <[Z.to_nat (i - from) :=
               mkQPointF (transform xMap (px s)) (transform yMap (py s))]> points)
        polyline in
    let polyline :=
      match curveFitter c with
      | Some fitter =>
          if testFlag (attributes c) Fitted then fitCurve fitter polyline
          else polyline
      | None => polyline
      end in
    let polyline := clipped c painter polyline in
    DrawPolyline polyline
    :: (if bool_decide (brushStyle (brush c) = NoBrush) then []
        else fillCurve c xMap yMap polyline).

Definition drawSticks (c : QwtPlotCurve) (xMap yMap : QwtScaleMap)
    (from to : int) : list PaintOp :=
  let x0 := transform xMap (reference c) in
  let y0 := transform yMap (reference c) in
  let o := orientation c in
  for_loop from to
    (fun i ops =>
       let s := sample c i in
       let xi := transform xMap (px s) in
       let yi := transform yMap (py s) in
       match o with
       | Horizontal => ops ++ [DrawLine (mkQPointF x0 yi) (mkQPointF xi yi)]
       | Vertical => ops ++ [DrawLine (mkQPointF xi y0) (mkQPointF xi yi)]
       end)
    [].

Definition drawDots (c : QwtPlotCurve) (painter : QPainter)
    (xMap yMap : QwtScaleMap) (from to : int) : list PaintOp :=
  if Rect.isEmptyQRect (window painter) then []
  else
    let doFill := negb (bool_decide (brushStyle (brush c) = NoBrush)) in
    let polyline : QPolygonF :=
      if doFill then replicate (Z.to_nat (to - from + 1)) (mkQPointF 0 0)%D
      else [] in
    let '(ops, polyline) :=
      for_loop from to
        (fun i '(ops, points) =>
           let s := sample c i in
           let xi := transform xMap (px s) in
           let yi := transform yMap (py s) in
           (ops ++ [DrawPoint (mkQPointF xi yi)],
            if doFill then <[Z.to_nat (i - from) := mkQPointF xi yi]> points
            else points))
        ([], polyline) in
    if doFill
    then ops ++ fillCurve c xMap yMap (clipped c painter polyline)
    else ops.

(** The polygon that [drawSteps] builds in its loop, before clipping. *)
Definition stepsPolygon (c : QwtPlotCurve) (xMap yMap : QwtScaleMap)
    (from to : int) : QPolygonF :=
  let polygon := replicate (Z.to_nat (2 * (to - from) + 1)) (mkQPointF 0 0)%D in
  let inverted := bool_decide (orientation c = Vertical) in
  let inverted := if testFlag (attributes c) Inverted then negb inverted
                  else inverted in
  snd (for_loop from to
         (fun i '(ip, points) =>
            let s := sample c i in
            let xi := transform xMap (px s) in
            let yi := transform yMap (py s) in
            let points :=
              if 0 <? ip then
                let p0 := points !!! Z.to_nat (ip - 2) in
                let p := if inverted then mkQPointF (px p0) yi
                         else mkQPointF xi (py p0) in
                <[Z.to_nat (ip - 1) := p]> points
              else points in
            (ip + 2, <[Z.to_nat ip := mkQPointF xi yi]> points))
         (0, polygon)).

Definition drawSteps (c : QwtPlotCurve) (painter : QPainter)
    (xMap yMap : QwtScaleMap) (from to : int) : list PaintOp :=
  let polygon := stepsPolygon c xMap yMap from to in
  let polygon := clipped c painter polygon in
  DrawPolyline polygon
  :: (if bool_decide (brushStyle (brush c) = NoBrush) then []
      else fillCurve c xMap yMap polygon).

Definition drawCurve (c : QwtPlotCurve) (painter : QPainter) (style : CurveStyle)
    (xMap yMap : QwtScaleMap) (from to : int) : list PaintOp :=
  match style with
  | Lines =>
      let '(from, to) :=
        if testCurveAttribute c Fitted then (0, dataSize c - 1) else (from, to) in
      drawLines c painter xMap yMap from to
  | Sticks => drawSticks c xMap yMap from to
  | Steps => drawSteps c painter xMap yMap from to
  | Dots => drawDots c painter xMap yMap from to
  | NoCurve => []
  end.

Definition drawSymbols (c : QwtPlotCurve) (symbol : QwtSymbol)
    (xMap yMap : QwtScaleMap) (from to : int) : list PaintOp :=
  let rect := Rect.setSize (symSize symbol) (mkQRectF 0 0 0 0)%D in
  [SetBrush (symBrush symbol); SetPen (symPen symbol)]
  ++ for_loop from to
       (fun i ops =>
          let s := sample c i in
          let xi := transform xMap (px s) in
          let yi := transform yMap (py s) in
          ops ++ [DrawSymbol symbol (Rect.moveCenter (mkQPointF xi yi) rect)])
       [].

Definition drawSeries (c : QwtPlotCurve) (painter : option QPainter)
    (xMap yMap : QwtScaleMap) (canvasRect : QRectF) (from to : int)
  : list PaintOp :=
  match painter with
  | None => []
  | Some painter =>
      if dataSize c <=? 0 then []
      else
        let to := if to <? 0 then dataSize c - 1 else to in
        let '(n, (from, to)) := verifyRange (dataSize c) from to in
        if 0 <? n then
          [Save; SetPen (pen c)]
          ++ drawCurve c painter (style c) xMap yMap from to
          ++ [Restore]
          ++ (if bool_decide (symStyle (symbol c) = NoSymbol) then []
              else [Save] ++ drawSymbols c (symbol c) xMap yMap from to
                   ++ [Restore])
        else []
  end.

End Drawing.

(** The size of the symbol in the legend, as the [LegendShowSymbol] branch
    of [drawLegendIdentifier] computes it. *)
Definition legendSymbolSize (rect : QRectF) (symbolSize : QSizeF) : QSizeF :=
  let symbolSize :=
    if (Rect.width rect <? wd symbolSize)%D then
      let ratio := (wd symbolSize / Rect.width rect)%D in
      let symbolSize := mkQSizeF (Rect.width rect) (ht symbolSize) in
      mkQSizeF (wd symbolSize) (double_of_int (qRound (ht symbolSize / ratio)%D))
    else symbolSize in
  if (Rect.height rect <? ht symbolSize)%D then
    let ratio := (wd symbolSize / Rect.width rect)%D in
    let symbolSize := mkQSizeF (wd symbolSize) (Rect.height rect) in
    mkQSizeF (double_of_int (qRound (wd symbolSize / ratio)%D)) (ht symbolSize)
  else symbolSize.

Definition drawLegendIdentifier (c : QwtPlotCurve) (rect : QRectF) : list PaintOp :=
  if Rect.isEmpty rect then []
  else
    let dim := int_of_double (qMin (Rect.width rect) (Rect.height rect)) in
    let r := Rect.moveCenter (Rect.center rect)
               (mkQRectF 0 0 (double_of_int dim) (double_of_int dim))%D in
    (if legendAttributes c =? 0 then
       let b := brush c in
       let b :=
         if bool_decide (brushStyle b = NoBrush) then
           if negb (bool_decide (style c = NoCurve))
           then QBrush_of_color (penColor (pen c))
           else if negb (bool_decide (symStyle (symbol c) = NoSymbol))
                then QBrush_of_color (penColor (symPen (symbol c)))
                else b
         else b in
       if negb (bool_decide (brushStyle b = NoBrush)) then [FillRect r b] else []
     else [])
    ++ (if testFlag (legendAttributes c) LegendShowBrush then
          if negb (bool_decide (brushStyle (brush c) = NoBrush))
          then [FillRect r (brush c)] else []
        else [])
    ++ (if testFlag (legendAttributes c) LegendShowLine then
          if negb (bool_decide (pen c = QPen_of_style NoPen)) then
            [SetPen (pen c);
             DrawLine (mkQPointF (Rect.left rect) (py (Rect.center rect)))
                      (mkQPointF (Rect.right rect - 1)%D (py (Rect.center rect)))]
          else []
        else [])
    ++ (if testFlag (legendAttributes c) LegendShowSymbol then
          if negb (bool_decide (symStyle (symbol c) = NoSymbol)) then
            let symbolSize := legendSymbolSize rect (symSize (symbol c)) in
            let symbolRect :=
              Rect.moveCenter (Rect.center rect)
                (Rect.setSize symbolSize (mkQRectF 0 0 0 0)%D) in
            [SetBrush (symBrush (symbol c)); SetPen (symPen (symbol c));
             DrawSymbol (symbol c) symbolRect]
          else []
        else []).

(** *** Configuration

    A mutator that calls [itemChanged()] returns the curve together with
    [true]; one that returns before the call gives [false]. *)

Definition setPaintAttribute (attribute : int) (on : bool) (c : QwtPlotCurve)
  : QwtPlotCurve :=
  mkQwtPlotCurve (style c) (reference c) (symbol c) (curveFitter c) (pen c) (brush c)
    (attributes c)
    (if on then Z.lor (paintAttributes c) attribute
     else Z.land (paintAttributes c) (Z.lnot attribute))
    (legendAttributes c)
    (d_series c) (orientation c) (plot c) (xAxis c) (yAxis c).

Definition testPaintAttribute (c : QwtPlotCurve) (attribute : int) : bool :=
  testFlag (paintAttributes c) attribute.

Definition setLegendAttribute (attribute : int) (on : bool) (c : QwtPlotCurve)
  : QwtPlotCurve :=
  mkQwtPlotCurve (style c) (reference c) (symbol c) (curveFitter c) (pen c) (brush c)
    (attributes c) (paintAttributes c)
    (if on then Z.lor (legendAttributes c) attribute
     else Z.land (legendAttributes c) (Z.lnot attribute))
    (d_series c) (orientation c) (plot c) (xAxis c) (yAxis c).

Definition testLegendAttribute (c : QwtPlotCurve) (attribute : int) : bool :=
  testFlag (legendAttributes c) attribute.

Definition setCurveAttribute (attribute : int) (on : bool) (c : QwtPlotCurve)
  : QwtPlotCurve * bool :=
  if bool_decide (testFlag (attributes c) attribute = on) then (c, false)
  else
    (mkQwtPlotCurve (style c) (reference c) (symbol c) (curveFitter c) (pen c)
       (brush c)
       (if on then Z.lor (attributes c) attribute
        else Z.land (attributes c) (Z.lnot attribute))
       (paintAttributes c) (legendAttributes c)
       (d_series c) (orientation c) (plot c) (xAxis c) (yAxis c),
     true).

Definition setStyle (v : CurveStyle) (c : QwtPlotCurve) : QwtPlotCurve * bool :=
  if negb (bool_decide (v = style c)) then
    (mkQwtPlotCurve v (reference c) (symbol c) (curveFitter c) (pen c) (brush c)
       (attributes c) (paintAttributes c) (legendAttributes c)
       (d_series c) (orientation c) (plot c) (xAxis c) (yAxis c),
     true)
  else (c, false).

Definition setPen (v : QPen) (c : QwtPlotCurve) : QwtPlotCurve * bool :=
  if negb (bool_decide (v = pen c)) then
    (mkQwtPlotCurve (style c) (reference c) (symbol c) (curveFitter c) v (brush c)
       (attributes c) (paintAttributes c) (legendAttributes c)
       (d_series c) (orientation c) (plot c) (xAxis c) (yAxis c),
     true)
  else (c, false).

Definition setBrush (v : QBrush) (c : QwtPlotCurve) : QwtPlotCurve * bool :=
  if negb (bool_decide (v = brush c)) then
    (mkQwtPlotCurve (style c) (reference c) (symbol c) (curveFitter c) (pen c) v
       (attributes c) (paintAttributes c) (legendAttributes c)
       (d_series c) (orientation c) (plot c) (xAxis c) (yAxis c),
     true)
  else (c, false).

End PlotCurve.

(** ** Binary64

    [closestPoint] and [setBaseline] decide by comparing [double]s, so that
    rounding and NaN bear on what they return.  Here a [double] is a
    binary64 number, and the curve is given by the fields that these two
    functions read and write: the baseline, the series, the plot and the
    two axes. *)

Module Binary64.

Abbreviation binary64 := PrimFloat.float (only parsing).

(** The conversion of an [int] to a [double]; it is exact. *)
Definition double_of_int (z : int) : binary64 :=
  if z <? 0 then PrimFloat.opp (PrimFloat.of_uint63 (Uint63.of_Z (- z)))
  else PrimFloat.of_uint63 (Uint63.of_Z z).

Definition qwtSqr (x : binary64) : binary64 := PrimFloat.mul x x.

Record QPointF := mkQPointF { px : binary64; py : binary64 }.
Record QwtScaleMap := mkQwtScaleMap { transform : binary64 -> binary64 }.
Record QwtPlot := mkQwtPlot { canvasMap : int -> QwtScaleMap }.

Record QwtPlotCurve := mkQwtPlotCurve {
  reference : binary64;
  d_series : list QPointF;
  plot : option QwtPlot;
  xAxis : int;
  yAxis : int
}.

#[global] Instance QPointF_inhabited : Inhabited QPointF :=
  populate (mkQPointF (double_of_int 0) (double_of_int 0)).

Definition dataSize (c : QwtPlotCurve) : int := Z.of_nat (length (d_series c)).

Definition sample (c : QwtPlotCurve) (i : int) : QPointF :=
  d_series c !!! Z.to_nat i.

(** [dist] is the optional output: [None] for a null pointer, [Some d] for
    a pointer to a [double] that holds [d].  The result is the returned
    index and what [dist] holds afterwards.  The search starts from
    [1.0e10]. *)
Definition closestPoint (c : QwtPlotCurve) (pos : QPoint) (dist : option binary64)
  : int * option binary64 :=
  match plot c with
  | None => (-1, dist)
  | Some plot =>
      if dataSize c <=? 0 then (-1, dist)
      else
        let xMap := canvasMap plot (xAxis c) in
        let yMap := canvasMap plot (yAxis c) in
        let '(index, dmin) :=
          for_loop 0 (dataSize c - 1)
            (fun i '(index, dmin) =>
               let s := sample c i in
               let cx := PrimFloat.sub (transform xMap (px s))
                           (double_of_int (ipx pos)) in
               let cy := PrimFloat.sub (transform yMap (py s))
                           (double_of_int (ipy pos)) in
               let f := PrimFloat.add (qwtSqr cx) (qwtSqr cy) in
               if PrimFloat.ltb f dmin then (i, f) else (index, dmin))
            (-1, double_of_int (10 ^ 10)) in
        (index,
         match dist with
         | Some _ => Some (PrimFloat.sqrt dmin)
         | None => None
         end)
  end.

(** [setBaseline] returns the curve together with [true] when it has called
    [itemChanged()]. *)
Definition setBaseline (v : binary64) (c : QwtPlotCurve) : QwtPlotCurve * bool :=
  if negb (PrimFloat.eqb (reference c) v) then
    (mkQwtPlotCurve v (d_series c) (plot c) (xAxis c) (yAxis c), true)
  else (c, false).

Definition baseline (c : QwtPlotCurve) : binary64 := reference c.

End Binary64.

(** ** The column symbol (qwt_column_symbol.cpp) *)

Module ColumnSymbol.

(** Modelled from the spec: the palette, of which the renderer uses three
    tones, and the label ([QwtText]); both are compared as values. *)
Record QPalette := mkQPalette { light : QBrush; dark : QBrush; window : QBrush }.
Record QwtText := mkQwtText { text : string }.

(** Modelled from the spec: the enumerations of qwt_column_symbol.h and the
    border flags of an interval (qwt_double_interval.h), which are not among
    the sources. *)
Inductive Style := NoStyle | Box | UserStyle.
Inductive FrameStyle := NoFrame | Plain | Raised.

Definition ExcludeMinimum : int := 1.
Definition ExcludeMaximum : int := 2.

Record QwtDoubleInterval := mkQwtDoubleInterval {
  minValue : double;
  maxValue : double;
  borderFlags : int
}.

(** Modelled from the spec: [QwtColumnRect], a rectangle and the two interval
    descriptors that carry the border flags. *)
Record QwtColumnRect := mkQwtColumnRect {
  toRect : QRectF;
  hInterval : QwtDoubleInterval;
  vInterval : QwtDoubleInterval
}.

#[global] Instance QPalette_eq_dec : EqDecision QPalette.
Proof. solve_decision. Defined.
#[global] Instance QwtText_eq_dec : EqDecision QwtText.
Proof. solve_decision. Defined.
#[global] Instance Style_eq_dec : EqDecision Style.
Proof. solve_decision. Defined.
#[global] Instance FrameStyle_eq_dec : EqDecision FrameStyle.
Proof. solve_decision. Defined.

Definition testFlag (flags flag : int) : bool := negb (Z.land flags flag =? 0).

Section Frames.
(** [QPolygonF::subtracted], a collaborator. *)
Variable subtracted : QPolygonF -> QPolygonF -> QPolygonF.

(** The last step of both frame painters. *)
Definition windowRect (rect : QRectF) (lw : double) : QRectF :=
  Rect.adjusted lw lw (- lw + 1)%D (- lw + 1)%D rect.

(** The file-level [drawBox]. *)
Definition drawBox (rect : QRectF) (pal : QPalette) (lw : double) : list PaintOp :=
  if (0 <? lw)%D then
    if (Rect.width rect =? 0)%D then
      [SetPen (QPen_of_color (brushColor (dark pal)));
       DrawLine (Rect.topLeft rect) (Rect.bottomLeft rect)]
    else if (Rect.height rect =? 0)%D then
      [SetPen (QPen_of_color (brushColor (dark pal)));
       DrawLine (Rect.topLeft rect) (Rect.topRight rect)]
    else
      let lw := qMin lw (Rect.height rect / 2 - 1)%D in
      let lw := qMin lw (Rect.width rect / 2 - 1)%D in
      let outerRect := Rect.adjusted 0 0 1 1 rect in
      let polygon := Rect.toPolygon outerRect in
      let polygon :=
        if (2 * lw <? Rect.width outerRect)%D && (2 * lw <? Rect.height outerRect)%D
        then
          let innerRect := Rect.adjusted lw lw (- lw)%D (- lw)%D outerRect in
          subtracted polygon (Rect.toPolygon innerRect)
        else polygon in
      [SetPen (QPen_of_style NoPen); SetBrush (dark pal); DrawPolygon polygon]
      ++ (if Rect.isValid (windowRect rect lw)
          then [FillRect (windowRect rect lw) (window pal)] else [])
  else
    if Rect.isValid (windowRect rect lw)
    then [FillRect (windowRect rect lw) (window pal)] else [].

(** The file-level [drawPanel]. *)
Definition drawPanel (rect : QRectF) (pal : QPalette) (lw : double) : list PaintOp :=
  if (0 <? lw)%D then
    if (Rect.width rect =? 0)%D then
      [SetPen (QPen_of_color (brushColor (window pal)));
       DrawLine (Rect.topLeft rect) (Rect.bottomLeft rect)]
    else if (Rect.height rect =? 0)%D then
      [SetPen (QPen_of_color (brushColor (window pal)));
       DrawLine (Rect.topLeft rect) (Rect.topRight rect)]
    else
      let lw := qMin lw (Rect.height rect / 2 - 1)%D in
      let lw := qMin lw (Rect.width rect / 2 - 1)%D in
      let outerRect := Rect.adjusted 0 0 1 1 rect in
      let innerRect := Rect.adjusted lw lw (- lw)%D (- lw)%D outerRect in
      let lines0 :=
        [Rect.bottomLeft outerRect; Rect.topLeft outerRect; Rect.topRight outerRect;
         Rect.topRight innerRect; Rect.topLeft innerRect; Rect.bottomLeft innerRect] in
      let lines1 :=
        [Rect.topRight outerRect; Rect.bottomRight outerRect; Rect.bottomLeft outerRect;
         Rect.bottomLeft innerRect; Rect.bottomRight innerRect; Rect.topRight innerRect] in
      [SetPen (QPen_of_style NoPen);
       SetBrush (light pal); DrawPolygon lines0;
       SetBrush (dark pal); DrawPolygon lines1;
       FillRect (windowRect rect lw) (window pal)]
  else [FillRect (windowRect rect lw) (window pal)].

(** The class [QwtColumnSymbol]: its private data and its members. *)
Record QwtColumnSymbol := mkQwtColumnSymbol {
  style : Style;
  frameStyle : FrameStyle;
  palette : QPalette;
  label : QwtText;
  lineWidth : int
}.

Definition operator_eq (this other : QwtColumnSymbol) : bool :=
  bool_decide (style this = style other)
  && bool_decide (palette this = palette other)
  && bool_decide (label this = label other)
  && (lineWidth this =? lineWidth other)
  && bool_decide (frameStyle this = frameStyle other).

Definition operator_ne (this other : QwtColumnSymbol) : bool :=
  negb (operator_eq this other).

Definition setStyle (v : Style) (s : QwtColumnSymbol) : QwtColumnSymbol :=
  mkQwtColumnSymbol v (frameStyle s) (palette s) (label s) (lineWidth s).
Definition setPalette (v : QPalette) (s : QwtColumnSymbol) : QwtColumnSymbol :=
  mkQwtColumnSymbol (style s) (frameStyle s) v (label s) (lineWidth s).
Definition setFrameStyle (v : FrameStyle) (s : QwtColumnSymbol) : QwtColumnSymbol :=
  mkQwtColumnSymbol (style s) v (palette s) (label s) (lineWidth s).
Definition setLineWidth (v : int) (s : QwtColumnSymbol) : QwtColumnSymbol :=
  mkQwtColumnSymbol (style s) (frameStyle s) (palette s) (label s) v.
Definition setLabel (v : QwtText) (s : QwtColumnSymbol) : QwtColumnSymbol :=
  mkQwtColumnSymbol (style s) (frameStyle s) (palette s) v (lineWidth s).

(** The rectangle of [QwtColumnSymbol::drawBox] after its four border
    adjustments. *)
Definition borderRect (rect : QwtColumnRect) : QRectF :=
  let r := toRect rect in
  let r := if testFlag (borderFlags (hInterval rect)) ExcludeMinimum
           then Rect.adjusted 1 0 0 0 r else r in
  let r := if testFlag (borderFlags (hInterval rect)) ExcludeMaximum
           then Rect.adjusted 0 0 (- (1))%D 0 r else r in
  let r := if testFlag (borderFlags (vInterval rect)) ExcludeMinimum
           then Rect.adjusted 0 1 0 0 r else r in
  if testFlag (borderFlags (vInterval rect)) ExcludeMaximum
  then Rect.adjusted 0 0 0 (- (1))%D r else r.

(** The member [QwtColumnSymbol::drawBox]. *)
Definition symbolDrawBox (s : QwtColumnSymbol) (rect : QwtColumnRect) : list PaintOp :=
  let r := borderRect rect in
  match frameStyle s with
  | Raised => drawPanel r (palette s) (double_of_int (lineWidth s))
  | Plain => drawBox r (palette s) (double_of_int (lineWidth s))
  | NoFrame => [FillRect (Rect.adjusted 0 0 (- (1))%D (- (1))%D r) (window (palette s))]
  end.

Definition draw (s : QwtColumnSymbol) (rect : QwtColumnRect) : list PaintOp :=
  [Save]
  ++ match style s with
     | Box => symbolDrawBox s rect
     | _ => []
     end
  ++ [Restore].

End Frames.
End ColumnSymbol.


(** ** Specification-side definitions

    The words of the specification, to be compared with the code above. *)

Module Spec.
Import PlotCurve.

(** Clamping an index into [[0, s - 1]]. *)
Definition clampIndex (s i : int) : int := Z.max 0 (Z.min (s - 1) i).

(** Range resolution: a negative [to] means the last index, both ends are
    clamped, and an inverted range is swapped. *)
Definition resolvedRange (s from to : int) : int * int :=
  let to := if to <? 0 then s - 1 else to in
  let from := clampIndex s from in
  let to := clampIndex s to in
  (Z.min from to, Z.max from to).

(** What is sent to the painter for a resolved interval: the curve in its
    style between [save] and [restore], then the symbols if there are any. *)
Definition intervalOps (clipPolygonF : QRectF -> QPolygonF -> QPolygonF)
    (c : QwtPlotCurve) (painter : QPainter) (xMap yMap : QwtScaleMap)
    (from to : int) : list PaintOp :=
  [Save; SetPen (pen c)]
  ++ drawCurve clipPolygonF c painter (style c) xMap yMap from to
  ++ [Restore]
  ++ (if bool_decide (symStyle (symbol c) = NoSymbol) then []
      else [Save] ++ drawSymbols c (symbol c) xMap yMap from to ++ [Restore]).

(** The device points of the samples [from, from + 1, ...], [n] of them. *)
Definition devicePoints (c : QwtPlotCurve) (xMap yMap : QwtScaleMap)
    (from : int) (n : nat) : QPolygonF :=
  transformed c xMap yMap <$> seqZ from (Z.of_nat n).

(** The corner between two consecutive device points of a staircase: one
    coordinate of the previous point and the other one of the next. *)
Definition stepCorner (inverted : bool) (p q : QPointF) : QPointF :=
  if inverted then mkQPointF (px p) (py q) else mkQPointF (px q) (py p).

(** The staircase through [p] and then the points of [l]. *)
Fixpoint staircase (inverted : bool) (p : QPointF) (l : QPolygonF) : QPolygonF :=
  match l with
  | [] => [p]
  | q :: l' => p :: stepCorner inverted p q :: staircase inverted q l'
  end.

(** The distance between a device point and a position, in binary64. *)
Definition distance (p : Binary64.QPointF) (pos : QPoint) : PrimFloat.float :=
  PrimFloat.sqrt
    (PrimFloat.add
       (Binary64.qwtSqr (PrimFloat.sub (Binary64.px p)
                           (Binary64.double_of_int (ipx pos))))
       (Binary64.qwtSqr (PrimFloat.sub (Binary64.py p)
                           (Binary64.double_of_int (ipy pos))))).

(** The inset that a border flag asks for: one unit when the flag is set. *)
Definition inset (flags flag : int) : double :=
  if ColumnSymbol.testFlag flags flag then 1%D else 0%D.

(** The stick of a device point: from the baseline to the point, along the
    axis that the orientation gives. *)
Definition stick (c : QwtPlotCurve) (xMap yMap : QwtScaleMap) (p : QPointF)
  : PaintOp :=
  match orientation c with
  | Horizontal => DrawLine (mkQPointF (transform xMap (reference c)) (py p)) p
  | Vertical => DrawLine (mkQPointF (px p) (transform yMap (reference c))) p
  end.

(** The rectangle of a symbol drawn at a device point. *)
Definition symbolRect (s : QwtSymbol) (p : QPointF) : QRectF :=
  Rect.moveCenter p (Rect.setSize (symSize s) (mkQRectF 0 0 0 0)%D).

(** The nesting of [save] and [restore]: the depth after a sequence of
    requests that starts at depth [d], if no [restore] comes without its
    [save]. *)
Fixpoint saveDepth (d : nat) (ops : list PaintOp) : option nat :=
  match ops with
  | [] => Some d
  | Save :: ops => saveDepth (Datatypes.S d) ops
  | Restore :: ops =>
      match d with
      | O => None
      | Datatypes.S d' => saveDepth d' ops
      end
  | _ :: ops => saveDepth d ops
  end.

(** A sequence of requests that hands the painter back as it got it. *)
Definition balanced (ops : list PaintOp) : Prop := saveDepth 0 ops = Some O.

(** A request that draws or sets, neither [save] nor [restore]. *)
Definition plainOp (op : PaintOp) : bool :=
  match op with
  | Save | Restore => false
  | _ => true
  end.

Definition isDrawSymbol (op : PaintOp) : bool :=
  match op with
  | DrawSymbol _ _ => true
  | _ => false
  end.

(** The number of symbols in a sequence of requests. *)
Definition symbolCount (ops : list PaintOp) : nat :=
  length (List.filter isDrawSymbol ops).

(** The square of the legend glyph: its side is the smaller side of the
    legend rectangle cut to an integer, its centre the centre of it. *)
Definition glyphRect (rect : QRectF) : QRectF :=
  let dim := int_of_double (qMin (Rect.width rect) (Rect.height rect)) in
  Rect.moveCenter (Rect.center rect)
    (mkQRectF 0 0 (double_of_int dim) (double_of_int dim))%D.

(** The brush of the legend glyph when no legend attribute is set. *)
Definition defaultGlyphBrush (c : QwtPlotCurve) : option QBrush :=
  if negb (bool_decide (brushStyle (brush c) = NoBrush)) then Some (brush c)
  else if negb (bool_decide (style c = NoCurve))
       then Some (QBrush_of_color (penColor (pen c)))
       else if negb (bool_decide (symStyle (symbol c) = NoSymbol))
            then Some (QBrush_of_color (penColor (symPen (symbol c))))
            else None.

(** The line width that both frame painters work with: the requested one,
    limited by half the height and half the width less one. *)
Definition frameWidth (rect : QRectF) (lw : double) : double :=
  qMin (qMin lw (Rect.height rect / 2 - 1)%D) (Rect.width rect / 2 - 1)%D.

(** The outer and the inner rectangle of a frame. *)
Definition outerRect (rect : QRectF) : QRectF := Rect.adjusted 0 0 1 1 rect.

Definition innerRect (rect : QRectF) (lw : double) : QRectF :=
  Rect.adjusted (frameWidth rect lw) (frameWidth rect lw)
    (- frameWidth rect lw)%D (- frameWidth rect lw)%D (outerRect rect).



End Spec.

(** ** Concrete data

    Small curves and symbols on which the properties are instantiated. *)

Module Examples.
Import PlotCurve.

Definition pt (x y : int) : QPointF := mkQPointF (double_of_int x) (double_of_int y).
Definition identityMap : QwtScaleMap := mkQwtScaleMap (fun v => v).
Definition solidPen : QPen := QPen_of_color black.
Definition grayBrush : QBrush := QBrush_of_color (mkQColor true 128).

(** A 16 x 16 symbol of the given style. *)
Definition symbol16 (st : SymbolStyle) : QwtSymbol :=
  mkQwtSymbol st QBrush_default solidPen
    (mkQSizeF (double_of_int 16) (double_of_int 16)).

(** A vertical curve without symbol and without fitter, attached to a plot
    whose axes map a value to itself; the baseline is 0. *)
Definition curve (st : CurveStyle) (b : QBrush) (attrs pattrs : int)
    (series : list QPointF) : QwtPlotCurve :=
  mkQwtPlotCurve st 0%D (symbol16 NoSymbol) None solidPen b attrs pattrs 0
    series Vertical (Some (mkQwtPlot (fun _ => identityMap))) 0 0.

(** A painter whose window is the square from (0, 0) to (99, 99). *)
Definition painter100 : QPainter := mkQPainter (mkQRect 0 0 99 99).

(** A clipper that leaves every polygon as it is. *)
Definition noClip (r : QRectF) (pa : QPolygonF) : QPolygonF := pa.

Definition threePoints : list QPointF := [pt 1 2; pt 3 4; pt 5 6].

(** A curve whose legend shows the symbol only, an ellipse of 16 x 16. *)
Definition legendCurve : QwtPlotCurve :=
  mkQwtPlotCurve Lines 0%D (symbol16 Ellipse) None solidPen QBrush_default 0 0
    LegendShowSymbol [] Vertical None 0 0.

(** A legend rectangle 64 wide and 8 high. *)
Definition legendRect : QRectF :=
  mkQRectF 0%D 0%D (double_of_int 64) (double_of_int 8).

(** A gray palette, column symbols of the three frame styles, and columns:
    one of width 0 and height 5 with all borders included, one of 10 x 20
    that excludes its horizontal minimum and its vertical maximum. *)
Definition grayPalette : ColumnSymbol.QPalette :=
  ColumnSymbol.mkQPalette (QBrush_of_color (mkQColor true 224))
    (QBrush_of_color (mkQColor true 64)) grayBrush.

Definition box (fs : ColumnSymbol.FrameStyle) (lw : int) : ColumnSymbol.QwtColumnSymbol :=
  ColumnSymbol.mkQwtColumnSymbol ColumnSymbol.Box fs grayPalette
    (ColumnSymbol.mkQwtText "bar") lw.

Definition thinColumn : ColumnSymbol.QwtColumnRect :=
  ColumnSymbol.mkQwtColumnRect
    (mkQRectF (double_of_int 3) 0%D 0%D (double_of_int 5))
    (ColumnSymbol.mkQwtDoubleInterval (double_of_int 3) (double_of_int 3) 0)
    (ColumnSymbol.mkQwtDoubleInterval 0%D (double_of_int 5) 0).

Definition borderColumn : ColumnSymbol.QwtColumnRect :=
  ColumnSymbol.mkQwtColumnRect
    (mkQRectF 0%D 0%D (double_of_int 10) (double_of_int 20))
    (ColumnSymbol.mkQwtDoubleInterval 0%D (double_of_int 10)
       ColumnSymbol.ExcludeMinimum)
    (ColumnSymbol.mkQwtDoubleInterval 0%D (double_of_int 20)
       ColumnSymbol.ExcludeMaximum).

(** In binary64: a curve attached to a plot whose axes map a value to
    itself, with the baseline 0 and a single sample at (200000, 0). *)
Definition farPoint : Binary64.QPointF :=
  Binary64.mkQPointF (Binary64.double_of_int 200000) (Binary64.double_of_int 0).

Definition farCurve : Binary64.QwtPlotCurve :=
  Binary64.mkQwtPlotCurve (Binary64.double_of_int 0) [farPoint]
    (Some (Binary64.mkQwtPlot (fun _ => Binary64.mkQwtScaleMap (fun v => v))))
    0 0.


(** A rectangle 10 wide without height. *)
Definition flatRect : QRectF := mkQRectF 0%D 0%D (double_of_int 10) 0%D.

(** A polygon subtraction that keeps the outer polygon and then lists the
    inner one, as a ring. *)
Definition ring (outer inner : QPolygonF) : QPolygonF := outer ++ inner.

End Examples.

(** ** Properties *)

Import PlotCurve Spec.

(** *** Loops *)

Lemma for_range_snoc {S : Type} (n : nat) (i : int) (body : int -> S -> S) (s : S) :
  for_range (Datatypes.S n) i body s
  = body (i + Z.of_nat n) (for_range n i body s).
Proof.
  revert i s. induction n as [|n IH]; intros i s.
  - simpl. by rewrite Z.add_0_r.
  - change (for_range (Datatypes.S (Datatypes.S n)) i body s)
      with (for_range (Datatypes.S n) (i + 1) body (body i s)).
    rewrite IH. simpl. by replace (i + 1 + Z.of_nat n) with (i + Z.pos (Pos.of_succ_nat n)) by lia.
Qed.

Lemma for_loop_empty {S : Type} (from to : int) (body : int -> S -> S) (s : S) :
  to < from -> for_loop from to body s = s.
Proof.
  intros H. unfold for_loop.
  replace (Z.to_nat (to - from + 1)) with O by lia. done.
Qed.

(** *** Range resolution *)

Lemma qwtLim_clampIndex (s i : int) :
  0 < s -> qwtLim i 0 (s - 1) = clampIndex s i.
Proof.
  intros Hs. unfold qwtLim, clampIndex.
  rewrite Z.min_l, Z.max_r by lia.
  destruct (Z.ltb_spec i 0); [lia|].
  destruct (Z.ltb_spec (s - 1) i); lia.
Qed.

Lemma clampIndex_bounds (s i : int) : 0 < s -> 0 <= clampIndex s i < s.
Proof. unfold clampIndex. lia. Qed.

Lemma verifyRange_spec (s from to : int) :
  0 < s ->
  verifyRange s from to
  = let f := clampIndex s from in
    let t := clampIndex s to in
    (Z.max f t - Z.min f t + 1, (Z.min f t, Z.max f t)).
Proof.
  intros Hs. unfold verifyRange.
  destruct (Z.ltb_spec s 1); [lia|].
  rewrite !qwtLim_clampIndex by done. cbv zeta.
  destruct (Z.ltb_spec (clampIndex s to) (clampIndex s from)).
  - rewrite Z.min_r, Z.max_l by lia. done.
  - rewrite Z.min_l, Z.max_r by lia. done.
Qed.

Lemma resolvedRange_bounds (s from to : int) :
  0 < s ->
  0 <= (resolvedRange s from to).1 <= (resolvedRange s from to).2
  /\ (resolvedRange s from to).2 < s.
Proof.
  intros Hs. unfold resolvedRange. cbv zeta. simpl.
  pose proof (clampIndex_bounds s from Hs).
  pose proof (clampIndex_bounds s (if to <? 0 then s - 1 else to) Hs).
  lia.
Qed.

(** C1.  [drawSeries] draws nothing without a painter or on an empty series;
    otherwise it draws the resolved interval: a negative [to] stands for the
    last index, both indices are clamped into the series and exchanged when
    out of order, and a count that is not positive draws nothing.  On a
    series that is not empty the resolved interval lies inside it. *)
Theorem drawSeries_range (clipPolygonF : QRectF -> QPolygonF -> QPolygonF)
    (c : QwtPlotCurve) (painter : option QPainter) (xMap yMap : QwtScaleMap)
    (canvasRect : QRectF) (from to : int) :
  let s := dataSize c in
  let from' := (resolvedRange s from to).1 in
  let to' := (resolvedRange s from to).2 in
  drawSeries clipPolygonF c painter xMap yMap canvasRect from to
  = match painter with
    | None => []
    | Some p =>
        if s =? 0 then []
        else if to' - from' + 1 <=? 0 then []
             else intervalOps clipPolygonF c p xMap yMap from' to'
    end
  /\ (0 < s -> 0 <= from' <= to' /\ to' < s).
Proof.
  intros s from' to'. split; [|apply resolvedRange_bounds].
  unfold drawSeries. destruct painter as [p|]; [|done].
  fold s. assert (0 <= s) by (unfold s, dataSize; lia).
  destruct (Z.leb_spec s 0), (Z.eqb_spec s 0); try lia; [done|].
  rewrite verifyRange_spec by lia. cbv zeta.
  change (Z.min _ _) with from'. change (Z.max _ _) with to'.
  pose proof (resolvedRange_bounds s from to ltac:(lia)) as [Hb1 Hb2].
  fold from' to' in Hb1, Hb2.
  destruct (Z.leb_spec (to' - from' + 1) 0); [lia|].
  case_match eqn:Hn; [reflexivity|].
  apply Z.ltb_ge in Hn. lia.
Qed.

(** *** Device points and staircases *)

Lemma devicePoints_cons (c : QwtPlotCurve) (xMap yMap : QwtScaleMap)
    (from : int) (n : nat) :
  devicePoints c xMap yMap from (Datatypes.S n)
  = transformed c xMap yMap from :: devicePoints c xMap yMap (from + 1) n.
Proof.
  unfold devicePoints. rewrite seqZ_cons by lia. simpl.
  do 3 f_equal; lia.
Qed.

Lemma length_devicePoints (c : QwtPlotCurve) (xMap yMap : QwtScaleMap)
    (from : int) (n : nat) :
  length (devicePoints c xMap yMap from n) = n.
Proof. unfold devicePoints. rewrite length_fmap, length_seqZ. lia. Qed.

Lemma lookup_devicePoints (c : QwtPlotCurve) (xMap yMap : QwtScaleMap)
    (from : int) (n k : nat) :
  (k < n)%nat ->
  devicePoints c xMap yMap from n !! k
  = Some (transformed c xMap yMap (from + Z.of_nat k)).
Proof.
  intros Hk. unfold devicePoints.
  rewrite list_lookup_fmap, lookup_seqZ_lt by lia. done.
Qed.




(** The loop of [drawSteps], started after a vertex [p0] at place [ip - 2]:
    every round writes the corner and the next device point. *)
Lemma steps_loop (c : QwtPlotCurve) (xMap yMap : QwtScaleMap) (inverted : bool)
    (n : nat) (i ip : int) (pre : QPolygonF) (p0 : QPointF) :
  ip = Z.of_nat (length pre) + 2 ->
  for_range n i
    (fun i '(ip, points) =>
       let s := sample c i in
       let xi := transform xMap (px s) in
       let yi := transform yMap (py s) in
       let points :=
         if 0 <? ip then
           let p0 := points !!! Z.to_nat (ip - 2) in
           let p := if inverted then mkQPointF (px p0) yi
                    else mkQPointF xi (py p0) in
           <[Z.to_nat (ip - 1) := p]> points
         else points in
       (ip + 2, <[Z.to_nat ip := mkQPointF xi yi]> points))
    (ip, pre ++ p0 :: replicate (2 * n) (mkQPointF 0 0)%D)
  = (ip + 2 * Z.of_nat n,
     pre ++ staircase inverted p0 (devicePoints c xMap yMap i n)).
Proof.
  revert i ip pre p0. induction n as [|n IH]; intros i ip pre p0 Hip.
  - simpl. by rewrite Z.add_0_r.
  - rewrite devicePoints_cons.
    replace (2 * Datatypes.S n)%nat with (Datatypes.S (Datatypes.S (2 * n))) by lia.
    cbn [for_range replicate staircase].
    destruct (Z.ltb_spec 0 ip); [|lia].
    replace (Z.to_nat (ip - 2)) with (length pre + 0)%nat by lia.
    replace (Z.to_nat (ip - 1)) with (length pre + 1)%nat by lia.
    replace (Z.to_nat ip) with (length pre + 2)%nat by lia.
    rewrite lookup_total_app_r by lia.
    replace (length pre + 0 - length pre)%nat with O by lia.
    rewrite !insert_app_r. cbn [lookup_total list_lookup_total list_insert insert].
    specialize (IH (i + 1) (ip + 2)
                  (pre ++ [p0; stepCorner inverted p0 (transformed c xMap yMap i)])
                  (transformed c xMap yMap i)).
    rewrite <- !app_assoc in IH.
    etrans; [apply IH; rewrite length_app; simpl; lia|].
    f_equal. lia.
Qed.

Lemma stepsPolygon_staircase (c : QwtPlotCurve) (xMap yMap : QwtScaleMap)
    (from to : int) :
  from <= to ->
  stepsPolygon c xMap yMap from to
  = staircase
      (xorb (bool_decide (orientation c = Vertical)) (testFlag (attributes c) Inverted))
      (transformed c xMap yMap from)
      (devicePoints c xMap yMap (from + 1) (Z.to_nat (to - from))).
Proof.
  intros Hle. unfold stepsPolygon, for_loop.
  replace (Z.to_nat (to - from + 1)) with (Datatypes.S (Z.to_nat (to - from))) by lia.
  replace (Z.to_nat (2 * (to - from) + 1))
    with (Datatypes.S (2 * Z.to_nat (to - from))) by lia.
  cbn [for_range replicate]. cbn [Z.ltb Z.compare Z.to_nat insert list_insert].
  set (inverted := if testFlag _ _ then _ else _).
  replace (xorb _ _) with inverted
    by (unfold inverted; destruct (bool_decide _), (testFlag _ _); done).
  pose proof (steps_loop c xMap yMap inverted (Z.to_nat (to - from)) (from + 1)
                (0 + 2) [] (transformed c xMap yMap from) eq_refl) as Hloop.
  etrans; [apply (f_equal snd Hloop)|]. done.
Qed.

(** The loop of [drawLines] and [drawDots] that stores the device points. *)
Lemma points_loop (c : QwtPlotCurve) (xMap yMap : QwtScaleMap) (from : int)
    (n : nat) (i : int) (pre : QPolygonF) :
  i - from = Z.of_nat (length pre) ->
  for_range n i
    (fun i points =>
       let s := sample c i in
       <[Z.to_nat (i - from) :=
           mkQPointF (transform xMap (px s)) (transform yMap (py s))]> points)
    (pre ++ replicate n (mkQPointF 0 0)%D)
  = pre ++ devicePoints c xMap yMap i n.
Proof.
  revert i pre. induction n as [|n IH]; intros i pre Hi; [done|].
  rewrite devicePoints_cons. cbn [for_range replicate].
  replace (Z.to_nat (i - from)) with (length pre + 0)%nat by lia.
  rewrite insert_app_r. cbn [insert list_insert].
  specialize (IH (i + 1) (pre ++ [transformed c xMap yMap i])).
  rewrite <- !app_assoc in IH.
  apply IH. rewrite length_app. simpl. lia.
Qed.

Lemma sample_lookup (c : QwtPlotCurve) (k : nat) (s : QPointF) :
  d_series c !! k = Some s -> sample c (Z.of_nat k) = s.
Proof.
  intros Hk. unfold sample. rewrite Nat2Z.id.
  by apply list_lookup_total_correct.
Qed.

(** The device points of the whole series. *)
Lemma devicePoints_all (c : QwtPlotCurve) (xMap yMap : QwtScaleMap) :
  devicePoints c xMap yMap 0 (length (d_series c))
  = (fun s => mkQPointF (transform xMap (px s)) (transform yMap (py s)))
      <$> d_series c.
Proof.
  apply list_eq. intros k. rewrite list_lookup_fmap.
  destruct (d_series c !! k) as [s|] eqn:Hk; simpl.
  - rewrite lookup_devicePoints by (by eapply lookup_lt_Some).
    unfold transformed. by rewrite Z.add_0_l, (sample_lookup c k s).
  - apply lookup_ge_None. rewrite length_devicePoints.
    by apply lookup_ge_None.
Qed.

(** What [drawLines] sends to the painter. *)
Lemma drawLines_ops (clipPolygonF : QRectF -> QPolygonF -> QPolygonF)
    (c : QwtPlotCurve) (painter : QPainter) (xMap yMap : QwtScaleMap)
    (from to : int) :
  drawLines clipPolygonF c painter xMap yMap from to
  = if to - from + 1 <=? 0 then []
    else
      let polyline := devicePoints c xMap yMap from (Z.to_nat (to - from + 1)) in
      let polyline :=
        match curveFitter c with
        | Some fitter =>
            if testFlag (attributes c) Fitted then fitCurve fitter polyline
            else polyline
        | None => polyline
        end in
      let polyline := clipped clipPolygonF c painter polyline in
      DrawPolyline polyline :: fillCurve c xMap yMap polyline.
Proof.
  unfold drawLines. cbv zeta. case_match; [done|].
  pose proof (points_loop c xMap yMap from (Z.to_nat (to - from + 1)) from []
                ltac:(simpl; lia)) as Hloop.
  cbn [app] in Hloop. cbv zeta in Hloop. unfold for_loop. rewrite Hloop.
  f_equal. unfold fillCurve. by case_bool_decide.
Qed.

(** *** Steps *)


(** *** Closing a polyline *)

(** C3.  Under vertical orientation [closePolyline] turns a polygon of two
    points into one of four: the two appended vertices lie at the device
    ordinate of the reference value, below the last and the first point.  A
    polygon of fewer than two points comes back unchanged, and [fillCurve]
    fills nothing when the closed polygon has two vertices or fewer. *)
Theorem closePolyline_two_points (c : QwtPlotCurve) (xMap yMap : QwtScaleMap)
    (p0 p1 : QPointF) (polygon : QPolygonF) :
  (orientation c = Vertical ->
   closePolyline c xMap yMap [p0; p1]
   = [p0; p1; mkQPointF (px p1) (transform yMap (reference c));
              mkQPointF (px p0) (transform yMap (reference c))])
  /\ ((length polygon < 2)%nat -> closePolyline c xMap yMap polygon = polygon)
  /\ ((length (closePolyline c xMap yMap polygon) <= 2)%nat ->
      fillCurve c xMap yMap polygon = []).
Proof.
  repeat split.
  - intros Ho. unfold closePolyline. simpl. by rewrite Ho.
  - intros Hlen. unfold closePolyline.
    by destruct (Z.ltb_spec (Z.of_nat (length polygon)) 2); [|lia].
  - intros Hlen. unfold fillCurve. case_bool_decide; [done|]. cbv zeta.
    by destruct (Z.leb_spec (Z.of_nat (length (closePolyline c xMap yMap polygon))) 2);
      [|lia].
Qed.

(** *** Fitting *)


(** C4, as the code has it.  With the [Lines] style and [Fitted] set,
    [drawCurve] computes the curve from the whole series, whatever interval
    was asked for: nothing is drawn for an empty series, and otherwise the
    device points of all samples go through the fitter (if there is one),
    the clipper and the painter.  The styles [Sticks], [Steps] and [Dots]
    draw the interval they are given, also when [Fitted] is set. *)
Theorem drawCurve_fitted_lines (clipPolygonF : QRectF -> QPolygonF -> QPolygonF)
    (c : QwtPlotCurve) (painter : QPainter) (xMap yMap : QwtScaleMap)
    (from to : int) :
  testCurveAttribute c Fitted = true ->
  drawCurve clipPolygonF c painter Lines xMap yMap from to
  = (if dataSize c =? 0 then []
     else
       let all :=
         (fun s => mkQPointF (transform xMap (px s)) (transform yMap (py s)))
           <$> d_series c in
       let polyline :=
         match curveFitter c with
         | Some fitter => fitCurve fitter all
         | None => all
         end in
       let polyline := clipped clipPolygonF c painter polyline in
       DrawPolyline polyline :: fillCurve c xMap yMap polyline)
  /\ drawCurve clipPolygonF c painter Sticks xMap yMap from to
     = drawSticks c xMap yMap from to
  /\ drawCurve clipPolygonF c painter Steps xMap yMap from to
     = drawSteps clipPolygonF c painter xMap yMap from to
  /\ drawCurve clipPolygonF c painter Dots xMap yMap from to
     = drawDots clipPolygonF c painter xMap yMap from to.
Proof.
  intros Hfit. split_and!; [|done..].
  unfold drawCurve. rewrite Hfit, drawLines_ops.
  assert (0 <= dataSize c) by (unfold dataSize; lia).
  destruct (Z.eqb_spec (dataSize c) 0) as [Hz|Hnz].
  - by destruct (Z.leb_spec (dataSize c - 1 - 0 + 1) 0); [|lia].
  - destruct (Z.leb_spec (dataSize c - 1 - 0 + 1) 0); [lia|].
    replace (Z.to_nat (dataSize c - 1 - 0 + 1)) with (length (d_series c))
      by (unfold dataSize; lia).
    rewrite devicePoints_all. unfold testCurveAttribute in Hfit. by rewrite Hfit.
Qed.

(** *** Comparisons *)

Lemma ltb_lt (a b : double) : (a <? b)%D = true <-> (a < b)%Qc.
Proof. unfold ltb. apply bool_decide_eq_true. Qed.

Lemma ltb_ge (a b : double) : (a <? b)%D = false <-> (b <= a)%Qc.
Proof.
  unfold ltb. rewrite bool_decide_eq_false. split.
  - apply Qcnot_lt_le.
  - apply Qcle_not_lt.
Qed.

(** *** The closest point *)

(** C5.  The curve [Examples.farCurve] has one sample, at (200000, 0), and
    is asked for the point closest to the position (0, 0).  The sample lies
    200000 device units away, at a squared distance of 4.0e10, which is not
    below the value 1.0e10 that the search starts from: [closestPoint]
    returns -1 and not the index 0 of the only sample, and the distance it
    stores in the output is 100000, the square root of the start value, and
    not 200000. *)
Theorem closestPoint_far_sample :
  Binary64.dataSize Examples.farCurve = 1
  /\ Binary64.sample Examples.farCurve 0 = Examples.farPoint
  /\ distance Examples.farPoint (mkQPoint 0 0) = Binary64.double_of_int 200000
  /\ Binary64.closestPoint Examples.farCurve (mkQPoint 0 0)
       (Some (Binary64.double_of_int 0))
     = (-1, Some (Binary64.double_of_int 100000))
  /\ Binary64.closestPoint Examples.farCurve (mkQPoint 0 0) None = (-1, None).
Proof. split_and!; reflexivity. Qed.

(** *** Evaluation

    An equation between values that hold rationals is decided by running
    the decision procedure of the equality. *)
Ltac by_computation := apply (bool_decide_unpack _); vm_compute; exact I.

(** *** The legend *)

(** C6.  The symbol of [Examples.legendCurve] measures 16 x 16 and the legend
    rectangle 64 x 8.  The symbol is too high, and [drawLegendIdentifier]
    asks the symbol to draw itself into the whole 64 x 8 rectangle: the
    width is not scaled down with the height, it grows from 16 to 64. *)
Theorem legend_symbol_stretched :
  legendSymbolSize Examples.legendRect (symSize (Examples.symbol16 Ellipse))
  = mkQSizeF (double_of_int 64) (double_of_int 8)
  /\ drawLegendIdentifier Examples.legendCurve Examples.legendRect
     = [SetBrush QBrush_default; SetPen Examples.solidPen;
        DrawSymbol (Examples.symbol16 Ellipse) Examples.legendRect].
Proof. split; by_computation. Qed.

(** *** Column symbols *)

Section ColumnProperties.
Import ColumnSymbol.
Variable subtracted : QPolygonF -> QPolygonF -> QPolygonF.

(** C7.  Two column symbols compare equal exactly when their style, frame
    style, palette, line width and label are equal; [operator!=] is the
    negation of [operator==]; and giving one of two equal symbols a
    different value in any single one of the five fields makes them
    unequal. *)
Theorem operator_eq_fields (a b : QwtColumnSymbol) :
  (operator_eq a b = true
   <-> style a = style b /\ frameStyle a = frameStyle b
       /\ palette a = palette b /\ lineWidth a = lineWidth b
       /\ label a = label b)
  /\ operator_ne a b = negb (operator_eq a b)
  /\ (operator_eq a b = true ->
      (forall v, v <> style b -> operator_eq a (setStyle v b) = false)
      /\ (forall v, v <> frameStyle b -> operator_eq a (setFrameStyle v b) = false)
      /\ (forall v, v <> palette b -> operator_eq a (setPalette v b) = false)
      /\ (forall v, v <> lineWidth b -> operator_eq a (setLineWidth v b) = false)
      /\ (forall v, v <> label b -> operator_eq a (setLabel v b) = false)).
Proof.
  assert (Hiff : forall x y : QwtColumnSymbol,
             operator_eq x y = true
             <-> style x = style y /\ frameStyle x = frameStyle y
                 /\ palette x = palette y /\ lineWidth x = lineWidth y
                 /\ label x = label y).
  { intros x y. unfold operator_eq.
    rewrite !andb_true_iff, !bool_decide_eq_true, Z.eqb_eq. tauto. }
  split_and!; [apply Hiff|done|].
  intros Heq. apply Hiff in Heq as (Hs & Hf & Hp & Hw & Hl).
  split_and!; intros v Hv; apply not_true_is_false; rewrite Hiff; simpl;
    intros (? & ? & ? & ? & ?); congruence.
Qed.

(** C8.  The rectangle that [QwtColumnSymbol::drawBox] hands to the painter
    of its frame is the column rectangle with each edge moved inwards by one
    unit exactly when the flag of that edge is set: the left edge for the
    horizontal [ExcludeMinimum], the right one for the horizontal
    [ExcludeMaximum], the top one for the vertical [ExcludeMinimum], the
    bottom one for the vertical [ExcludeMaximum].  With the horizontal
    minimum and the vertical maximum excluded, and nothing else, the left
    and the bottom edge move by one unit and the top and the right edge
    stay. *)
Theorem borderRect_insets (s : QwtColumnSymbol) (rect : QwtColumnRect) :
  let r := borderRect rect in
  let hFlags := borderFlags (hInterval rect) in
  let vFlags := borderFlags (vInterval rect) in
  (Rect.left r = (Rect.left (toRect rect) + inset hFlags ExcludeMinimum)%D
   /\ Rect.right r = (Rect.right (toRect rect) - inset hFlags ExcludeMaximum)%D
   /\ Rect.top r = (Rect.top (toRect rect) + inset vFlags ExcludeMinimum)%D
   /\ Rect.bottom r = (Rect.bottom (toRect rect) - inset vFlags ExcludeMaximum)%D)
  /\ (testFlag hFlags ExcludeMinimum = true ->
      testFlag hFlags ExcludeMaximum = false ->
      testFlag vFlags ExcludeMinimum = false ->
      testFlag vFlags ExcludeMaximum = true ->
      Rect.left r = (Rect.left (toRect rect) + 1)%D
      /\ Rect.bottom r = (Rect.bottom (toRect rect) - 1)%D
      /\ Rect.top r = Rect.top (toRect rect)
      /\ Rect.right r = Rect.right (toRect rect))
  /\ symbolDrawBox subtracted s rect
     = match frameStyle s with
       | Raised => drawPanel r (palette s) (double_of_int (lineWidth s))
       | Plain => drawBox subtracted r (palette s) (double_of_int (lineWidth s))
       | NoFrame =>
           [FillRect (Rect.adjusted 0 0 (- (1)) (- (1)) r)%D (window (palette s))]
       end.
Proof.
  intros r hFlags vFlags.
  assert (Hgen :
    Rect.left r = (Rect.left (toRect rect) + inset hFlags ExcludeMinimum)%D
    /\ Rect.right r = (Rect.right (toRect rect) - inset hFlags ExcludeMaximum)%D
    /\ Rect.top r = (Rect.top (toRect rect) + inset vFlags ExcludeMinimum)%D
    /\ Rect.bottom r = (Rect.bottom (toRect rect) - inset vFlags ExcludeMaximum)%D).
  { unfold r, borderRect, inset. fold hFlags vFlags.
    destruct (toRect rect) as [x y wd ht].
    destruct (testFlag hFlags ExcludeMinimum), (testFlag hFlags ExcludeMaximum),
      (testFlag vFlags ExcludeMinimum), (testFlag vFlags ExcludeMaximum);
      unfold Rect.left, Rect.right, Rect.top, Rect.bottom, Rect.adjusted; simpl;
      change (double_of_int 0) with 0%Qc; change (double_of_int 1) with 1%Qc;
      split_and!; ring. }
  split_and!; [apply Hgen..| |done].
  intros H1 H2 H3 H4. destruct Hgen as (Hl & Hr & Ht & Hb).
  rewrite Hl, Hr, Ht, Hb. unfold inset. rewrite H1, H2, H3, H4.
  change (double_of_int 0) with 0%Qc.
  split_and!; [done|done|ring|ring].
Qed.

Lemma double_of_int_pos (z : int) : 0 < z -> (0 <? double_of_int z)%D = true.
Proof.
  intros Hz. apply ltb_lt. unfold Qclt, double_of_int, Q2Qc, this.
  rewrite !Qred_correct. unfold Qlt. simpl. lia.
Qed.

(** C9, as the code has it.  A column symbol with the [Plain] frame and a
    positive line width, drawn on a rectangle of width 0, sends exactly one
    line to the painter, in the dark tone of the palette, from the top-left
    to the bottom-left corner of the rectangle, and nothing else. *)
Theorem plain_zero_width (s : QwtColumnSymbol) (rect : QwtColumnRect) :
  frameStyle s = Plain ->
  0 < lineWidth s ->
  Rect.width (borderRect rect) = 0%D ->
  symbolDrawBox subtracted s rect
  = [SetPen (QPen_of_color (brushColor (dark (palette s))));
     DrawLine (Rect.topLeft (borderRect rect)) (Rect.bottomLeft (borderRect rect))]
  /\ (style s = Box ->
      draw subtracted s rect
      = [Save;
         SetPen (QPen_of_color (brushColor (dark (palette s))));
         DrawLine (Rect.topLeft (borderRect rect)) (Rect.bottomLeft (borderRect rect));
         Restore]).
Proof.
  intros Hf Hlw Hw.
  assert (Hbox : symbolDrawBox subtracted s rect
                 = [SetPen (QPen_of_color (brushColor (dark (palette s))));
                    DrawLine (Rect.topLeft (borderRect rect))
                             (Rect.bottomLeft (borderRect rect))]).
  { unfold symbolDrawBox, drawBox. rewrite Hf, double_of_int_pos by done.
    unfold eqb. by rewrite Hw, bool_decide_eq_true_2. }
  split; [done|]. intros Hs. unfold draw. by rewrite Hs, Hbox.
Qed.

End ColumnProperties.

(** ** Instances

    The properties above at the concrete data of [Examples], and the inputs
    on which the behaviour of the code departs from a stronger reading. *)

Section Instances.
Import Examples ColumnSymbol.

(** [drawSeries] asked for the interval from 5 to "the last" on three
    samples: the interval resolves to the last sample alone. *)
Lemma drawSeries_range_witness :
  0 < dataSize (curve Lines QBrush_default 0 0 threePoints)
  /\ drawSeries noClip (curve Lines QBrush_default 0 0 threePoints)
       (Some painter100) identityMap identityMap legendRect 5 (-1)
     = intervalOps noClip (curve Lines QBrush_default 0 0 threePoints)
         painter100 identityMap identityMap 2 2
  /\ (0 <= (resolvedRange 3 5 (-1)).1 <= (resolvedRange 3 5 (-1)).2
      /\ (resolvedRange 3 5 (-1)).2 < 3).
Proof.
  pose proof (drawSeries_range noClip (curve Lines QBrush_default 0 0 threePoints)
                (Some painter100) identityMap identityMap legendRect 5 (-1))
    as [Hdraw Hbounds].
  split_and!; [reflexivity|exact Hdraw|apply Hbounds; reflexivity..].
Defined.



(** Two points above the baseline are closed along it; one point is left
    alone and not filled. *)
Lemma closePolyline_two_points_witness :
  orientation (curve Lines grayBrush 0 0 threePoints) = Vertical
  /\ closePolyline (curve Lines grayBrush 0 0 threePoints) identityMap identityMap
       [pt 1 2; pt 3 4]
     = [pt 1 2; pt 3 4; pt 3 0; pt 1 0]
  /\ closePolyline (curve Lines grayBrush 0 0 threePoints) identityMap identityMap
       [pt 1 2]
     = [pt 1 2]
  /\ fillCurve (curve Lines grayBrush 0 0 threePoints) identityMap identityMap [pt 1 2]
     = [].
Proof.
  pose proof (closePolyline_two_points (curve Lines grayBrush 0 0 threePoints)
                identityMap identityMap (pt 1 2) (pt 3 4) [pt 1 2])
    as (Hclose & Hshort & Hfill).
  split_and!; [reflexivity|exact (Hclose eq_refl)| |].
  - apply Hshort. simpl. lia.
  - apply Hfill. simpl. lia.
Defined.

(** A fitted curve of style [Lines], asked for its second sample alone,
    draws the polyline of all three. *)
Lemma drawCurve_fitted_lines_witness :
  testCurveAttribute (curve Lines QBrush_default Fitted 0 threePoints) Fitted = true
  /\ drawCurve noClip (curve Lines QBrush_default Fitted 0 threePoints) painter100
       Lines identityMap identityMap 1 1
     = [DrawPolyline threePoints].
Proof.
  split; [reflexivity|].
  exact (proj1 (drawCurve_fitted_lines noClip
                  (curve Lines QBrush_default Fitted 0 threePoints) painter100
                  identityMap identityMap 1 1 eq_refl)).
Defined.

(** A fitted curve of style [Sticks], asked for its second sample alone,
    draws the stick of that sample and not those of the whole series. *)
Lemma drawCurve_fitted_sticks_counterexample :
  testCurveAttribute (curve Sticks QBrush_default Fitted 0 threePoints) Fitted = true
  /\ dataSize (curve Sticks QBrush_default Fitted 0 threePoints) = 3
  /\ drawCurve noClip (curve Sticks QBrush_default Fitted 0 threePoints) painter100
       Sticks identityMap identityMap 1 1
     = [DrawLine (pt 3 0) (pt 3 4)]
  /\ drawCurve noClip (curve Sticks QBrush_default Fitted 0 threePoints) painter100
       Sticks identityMap identityMap 0 2
     = [DrawLine (pt 1 0) (pt 1 2); DrawLine (pt 3 0) (pt 3 4);
        DrawLine (pt 5 0) (pt 5 6)].
Proof. split_and!; reflexivity. Qed.

(** Two equal symbols, and one of them after a change of its line width. *)
Lemma operator_eq_fields_witness :
  operator_eq (box Raised 2) (box Raised 2) = true
  /\ operator_eq (box Raised 2) (setLineWidth 3 (box Raised 2)) = false.
Proof.
  split; [reflexivity|].
  destruct (proj2 (proj2 (operator_eq_fields (box Raised 2) (box Raised 2))) eq_refl)
    as (_ & _ & _ & Hwidth & _).
  apply Hwidth. simpl. lia.
Defined.

(** A column of 10 x 20 at the origin that excludes its horizontal minimum
    and its vertical maximum. *)
Lemma borderRect_insets_witness :
  testFlag (borderFlags (hInterval borderColumn)) ExcludeMinimum = true
  /\ testFlag (borderFlags (hInterval borderColumn)) ExcludeMaximum = false
  /\ testFlag (borderFlags (vInterval borderColumn)) ExcludeMinimum = false
  /\ testFlag (borderFlags (vInterval borderColumn)) ExcludeMaximum = true
  /\ Rect.left (borderRect borderColumn) = (Rect.left (toRect borderColumn) + 1)%D
  /\ Rect.bottom (borderRect borderColumn) = (Rect.bottom (toRect borderColumn) - 1)%D
  /\ Rect.top (borderRect borderColumn) = Rect.top (toRect borderColumn)
  /\ Rect.right (borderRect borderColumn) = Rect.right (toRect borderColumn).
Proof.
  split_and!; [reflexivity..| | | |];
    apply (proj1 (proj2 (borderRect_insets ring (box Plain 2) borderColumn))
             eq_refl eq_refl eq_refl eq_refl).
Defined.

(** A plain column symbol of line width 2 on a column of width 0. *)
Lemma plain_zero_width_witness :
  frameStyle (box Plain 2) = Plain
  /\ 0 < lineWidth (box Plain 2)
  /\ Rect.width (borderRect thinColumn) = 0%D
  /\ symbolDrawBox ring (box Plain 2) thinColumn
     = [SetPen (QPen_of_color (mkQColor true 64));
        DrawLine (pt 3 0) (mkQPointF (double_of_int 3) (0 + double_of_int 5)%D)].
Proof.
  split_and!; [reflexivity..|].
  exact (proj1 (plain_zero_width ring (box Plain 2) thinColumn
                  eq_refl eq_refl eq_refl)).
Defined.

(** A plain column symbol of line width 0 on a column of width 0 and height
    5: no line is drawn, and a rectangle of 1 x 6 is filled in the window
    tone. *)
Lemma plain_zero_width_counterexample :
  frameStyle (box Plain 0) = Plain
  /\ Rect.width (borderRect thinColumn) = 0%D
  /\ symbolDrawBox ring (box Plain 0) thinColumn
     = [FillRect (mkQRectF (double_of_int 3) 0%D (double_of_int 1) (double_of_int 6))
          grayBrush].
Proof. split_and!; [reflexivity|reflexivity|by_computation]. Qed.

End Instances.

(** ** Further properties of the curve renderer *)

Section CurveProperties.
Variable clipPolygonF : QRectF -> QPolygonF -> QPolygonF.

(** *** Loops that send one request for every sample *)

Lemma for_range_ext {S : Type} (f g : int -> S -> S) (n : nat) (i : int) (s : S) :
  (forall j t, f j t = g j t) -> for_range n i f s = for_range n i g s.
Proof.
  intros Hfg. revert i s. induction n as [|n IH]; intros i s; [done|].
  simpl. by rewrite Hfg, IH.
Qed.

Lemma for_range_append {A : Type} (g : int -> A) (n : nat) (i : int) (acc : list A) :
  for_range n i (fun i acc => acc ++ [g i]) acc = acc ++ (g <$> seqZ i (Z.of_nat n)).
Proof.
  revert i acc. induction n as [|n IH]; intros i acc.
  - simpl. by rewrite app_nil_r.
  - rewrite seqZ_cons by lia. cbn [for_range]. rewrite IH, <- app_assoc.
    replace (Z.pred (Z.of_nat (Datatypes.S n))) with (Z.of_nat n) by lia.
    by replace (Z.succ i) with (i + 1) by lia.
Qed.

Lemma drawSticks_map (c : QwtPlotCurve) (xMap yMap : QwtScaleMap) (from to : int) :
  drawSticks c xMap yMap from to
  = stick c xMap yMap <$> devicePoints c xMap yMap from (Z.to_nat (to - from + 1)).
Proof.
  unfold drawSticks, for_loop. cbv zeta.
  rewrite (for_range_ext _
             (fun i ops => ops ++ [stick c xMap yMap (transformed c xMap yMap i)]))
    by (intros j t; unfold stick, transformed; by destruct (orientation c)).
  rewrite for_range_append. simpl. unfold devicePoints.
  by rewrite <- list_fmap_compose.
Qed.

(** X1.  [drawSticks] sends one line for every sample of the interval, in
    the order of the samples and nothing else: the stick from the baseline
    to the device point, horizontal under horizontal orientation and
    vertical otherwise.  An interval with [to < from] sends nothing. *)
Theorem drawSticks_lines (c : QwtPlotCurve) (xMap yMap : QwtScaleMap)
    (from to : int) :
  drawSticks c xMap yMap from to
  = stick c xMap yMap <$> devicePoints c xMap yMap from (Z.to_nat (to - from + 1))
  /\ length (drawSticks c xMap yMap from to) = Z.to_nat (to - from + 1).
Proof.
  split; [apply drawSticks_map|].
  by rewrite drawSticks_map, length_fmap, length_devicePoints.
Qed.

Lemma symbolRect_center (s : QwtSymbol) (p : QPointF) :
  Rect.center (symbolRect s p) = p.
Proof.
  destruct p as [x y]. unfold Rect.center, symbolRect, Rect.moveCenter, Rect.setSize.
  simpl. f_equal; ring.
Qed.

Lemma drawSymbols_map (c : QwtPlotCurve) (s : QwtSymbol) (xMap yMap : QwtScaleMap)
    (from to : int) :
  drawSymbols c s xMap yMap from to
  = [SetBrush (symBrush s); SetPen (symPen s)]
    ++ ((fun p => DrawSymbol s (symbolRect s p))
          <$> devicePoints c xMap yMap from (Z.to_nat (to - from + 1))).
Proof.
  unfold drawSymbols, for_loop. cbv zeta. f_equal.
  rewrite (for_range_ext _
             (fun i ops =>
                ops ++ [DrawSymbol s (symbolRect s (transformed c xMap yMap i))]))
    by done.
  rewrite for_range_append. simpl. unfold devicePoints.
  by rewrite <- list_fmap_compose.
Qed.

(** X2.  [drawSymbols] sets the brush and the pen of the symbol and then
    asks for one symbol for every sample of the interval, in order; the
    rectangle of each has the size of the symbol and its centre at the
    device point of the sample. *)
Theorem drawSymbols_glyphs (c : QwtPlotCurve) (s : QwtSymbol)
    (xMap yMap : QwtScaleMap) (from to : int) :
  drawSymbols c s xMap yMap from to
  = [SetBrush (symBrush s); SetPen (symPen s)]
    ++ ((fun p => DrawSymbol s (symbolRect s p))
          <$> devicePoints c xMap yMap from (Z.to_nat (to - from + 1)))
  /\ (forall p, Rect.center (symbolRect s p) = p
                /\ Rect.width (symbolRect s p) = wd (symSize s)
                /\ Rect.height (symbolRect s p) = ht (symSize s)).
Proof.
  split; [apply drawSymbols_map|].
  intros p. split_and!; [apply symbolRect_center|done|done].
Qed.

(** The loop of [drawDots], with and without the buffer for the fill. *)
Lemma dots_loop_fill (c : QwtPlotCurve) (xMap yMap : QwtScaleMap) (from : int)
    (n : nat) (i : int) (ops : list PaintOp) (pre : QPolygonF) :
  i - from = Z.of_nat (length pre) ->
  for_range n i
    (fun i '(ops, points) =>
       let s := sample c i in
       let xi := transform xMap (px s) in
       let yi := transform yMap (py s) in
       (ops ++ [DrawPoint (mkQPointF xi yi)],
        if true then <[Z.to_nat (i - from) := mkQPointF xi yi]> points
        else points))
    (ops, pre ++ replicate n (mkQPointF 0 0)%D)
  = (ops ++ (DrawPoint <$> devicePoints c xMap yMap i n),
     pre ++ devicePoints c xMap yMap i n).
Proof.
  revert i ops pre. induction n as [|n IH]; intros i ops pre Hi.
  - simpl. by rewrite !app_nil_r.
  - rewrite devicePoints_cons. cbn [for_range replicate].
    replace (Z.to_nat (i - from)) with (length pre + 0)%nat by lia.
    rewrite insert_app_r. cbn [insert list_insert].
    specialize (IH (i + 1) (ops ++ [DrawPoint (transformed c xMap yMap i)])
                  (pre ++ [transformed c xMap yMap i])).
    rewrite <- !app_assoc in IH.
    apply IH. rewrite length_app. simpl. lia.
Qed.

Lemma dots_loop_plain (c : QwtPlotCurve) (xMap yMap : QwtScaleMap) (from : int)
    (n : nat) (i : int) (ops : list PaintOp) (points : QPolygonF) :
  for_range n i
    (fun i '(ops, points) =>
       let s := sample c i in
       let xi := transform xMap (px s) in
       let yi := transform yMap (py s) in
       (ops ++ [DrawPoint (mkQPointF xi yi)],
        if false then <[Z.to_nat (i - from) := mkQPointF xi yi]> points
        else points))
    (ops, points)
  = (ops ++ (DrawPoint <$> devicePoints c xMap yMap i n), points).
Proof.
  revert i ops. induction n as [|n IH]; intros i ops.
  - simpl. by rewrite app_nil_r.
  - rewrite devicePoints_cons. cbn [for_range].
    specialize (IH (i + 1) (ops ++ [DrawPoint (transformed c xMap yMap i)])).
    rewrite <- !app_assoc in IH. apply IH.
Qed.

Lemma drawDots_map (c : QwtPlotCurve) (painter : QPainter)
    (xMap yMap : QwtScaleMap) (from to : int) :
  drawDots clipPolygonF c painter xMap yMap from to
  = if Rect.isEmptyQRect (window painter) then []
    else
      let points := devicePoints c xMap yMap from (Z.to_nat (to - from + 1)) in
      (DrawPoint <$> points)
      ++ fillCurve c xMap yMap (clipped clipPolygonF c painter points).
Proof.
  unfold drawDots. case_match; [done|]. cbv zeta. unfold for_loop.
  case_bool_decide as Hbrush; cbn [negb].
  - pose proof (dots_loop_plain c xMap yMap from (Z.to_nat (to - from + 1)) from [] [])
      as Hloop.
    cbv zeta in Hloop. rewrite Hloop. cbn [app].
    unfold fillCurve. by rewrite bool_decide_eq_true_2, app_nil_r.
  - pose proof (dots_loop_fill c xMap yMap from (Z.to_nat (to - from + 1)) from [] []
                  ltac:(simpl; lia)) as Hloop.
    cbv zeta in Hloop. cbn [app] in Hloop. by rewrite Hloop.
Qed.

(** X3.  [drawDots] sends nothing to a painter whose window is empty.
    Otherwise it sends one point for every sample of the interval, in
    order, and then, if the curve has a brush, the fill of the polygon
    through these points (clipped when [ClipPolygons] is set); it never
    sends a polyline. *)
Theorem drawDots_points (c : QwtPlotCurve) (painter : QPainter)
    (xMap yMap : QwtScaleMap) (from to : int) :
  drawDots clipPolygonF c painter xMap yMap from to
  = (if Rect.isEmptyQRect (window painter) then []
     else
       let points := devicePoints c xMap yMap from (Z.to_nat (to - from + 1)) in
       (DrawPoint <$> points)
       ++ fillCurve c xMap yMap (clipped clipPolygonF c painter points))
  /\ (forall pa, DrawPolyline pa ∉ drawDots clipPolygonF c painter xMap yMap from to).
Proof.
  split; [apply drawDots_map|].
  intros pa. rewrite drawDots_map. case_match; [apply not_elem_of_nil|].
  cbv zeta. rewrite elem_of_app, list_elem_of_fmap. intros [(p & Hp & _)|Hin]; [done|].
  unfold fillCurve in Hin.
  repeat case_match; try (by apply elem_of_nil in Hin);
    repeat (apply elem_of_cons in Hin as [Hin|Hin]; [discriminate|]);
    by apply elem_of_nil in Hin.
Qed.

(** *** Filling *)

(** X4.  Without a brush [fillCurve] sends nothing.  With a brush and a
    polygon of at least two vertices it always paints: [closePolyline]
    keeps the vertices and appends the projections of the last and of the
    first one onto the baseline (onto the device ordinate of the reference
    value under vertical orientation, onto its device abscissa under
    horizontal orientation), and this closed polygon is drawn without a pen,
    between [save] and [restore], with the brush of the curve, whose colour
    is replaced by the colour of the pen when it is not valid. *)
Theorem fillCurve_closed_polygon (c : QwtPlotCurve) (xMap yMap : QwtScaleMap)
    (polygon : QPolygonF) :
  (brushStyle (brush c) = NoBrush -> fillCurve c xMap yMap polygon = [])
  /\ (brushStyle (brush c) <> NoBrush -> (2 <= length polygon)%nat ->
      let first := List.hd inhabitant polygon in
      let last := List.last polygon inhabitant in
      let closed :=
        polygon
        ++ match orientation c with
           | Vertical =>
               [mkQPointF (px last) (transform yMap (reference c));
                mkQPointF (px first) (transform yMap (reference c))]
           | Horizontal =>
               [mkQPointF (transform xMap (reference c)) (py last);
                mkQPointF (transform xMap (reference c)) (py first)]
           end in
      closePolyline c xMap yMap polygon = closed
      /\ fillCurve c xMap yMap polygon
         = [Save; SetPen (QPen_of_style NoPen);
            SetBrush (if isValid (brushColor (brush c)) then brush c
                      else setColor (penColor (pen c)) (brush c));
            DrawPolygon closed; Restore]).
Proof.
  split.
  - intros Hb. unfold fillCurve. by rewrite Hb.
  - intros Hb Hlen first last closed.
    assert (Hclose : closePolyline c xMap yMap polygon = closed).
    { unfold closePolyline, closed, first, last.
      destruct (Z.ltb_spec (Z.of_nat (length polygon)) 2); [lia|].
      destruct polygon as [|p0 rest]; [simpl in Hlen; lia|].
      destruct (orientation c); by rewrite <- app_assoc. }
    split; [done|]. unfold fillCurve. rewrite Hclose.
    case_bool_decide; [done|].
    destruct (Z.leb_spec (Z.of_nat (length closed)) 2) as [Hle|]; [|done].
    unfold closed in Hle. rewrite length_app in Hle.
    destruct (orientation c); simpl in Hle; lia.
Qed.

(** *** The segments of a staircase *)

Lemma staircase_segments (inverted : bool) (p : QPointF) (l : QPolygonF)
    (j : nat) (a b : QPointF) :
  staircase inverted p l !! j = Some a ->
  staircase inverted p l !! Datatypes.S j = Some b ->
  if xorb inverted (Nat.odd j) then px a = px b else py a = py b.
Proof.
  revert p j. induction l as [|q l IH]; intros p j Ha Hb.
  - by destruct j.
  - destruct j as [|[|j]].
    + simpl in Ha, Hb. simplify_eq. by destruct inverted.
    + simpl in Ha. assert (Hq : b = q) by (destruct l; simpl in Hb; by simplify_eq).
      simplify_eq. by destruct inverted.
    + rewrite Nat.odd_succ_succ. by apply (IH q j).
Qed.

(** X5.  Every segment of the polygon that [drawSteps] builds is parallel
    to an axis, and the directions alternate: when orientation XOR
    [Inverted] holds, a segment that starts at an even place keeps the
    abscissa and one that starts at an odd place keeps the ordinate;
    otherwise it is the other way round. *)
Theorem steps_axis_parallel (c : QwtPlotCurve) (xMap yMap : QwtScaleMap)
    (from to : int) (j : nat) (a b : QPointF) :
  from <= to ->
  stepsPolygon c xMap yMap from to !! j = Some a ->
  stepsPolygon c xMap yMap from to !! Datatypes.S j = Some b ->
  if xorb (xorb (bool_decide (orientation c = Vertical))
                (testFlag (attributes c) Inverted))
          (Nat.odd j)
  then px a = px b else py a = py b.
Proof.
  intros Hle. rewrite stepsPolygon_staircase by done. apply staircase_segments.
Qed.

(** *** Saving and restoring the painter *)

Lemma saveDepth_app (d : nat) (a b : list PaintOp) :
  saveDepth d (a ++ b)
  = match saveDepth d a with
    | Some d' => saveDepth d' b
    | None => None
    end.
Proof.
  revert d. induction a as [|op a IH]; intros d; [done|].
  destruct op; simpl; try apply IH. destruct d; [done|apply IH].
Qed.

Lemma saveDepth_plain (d : nat) (ops : list PaintOp) :
  forallb plainOp ops = true -> saveDepth d ops = Some d.
Proof.
  induction ops as [|op ops IH]; [done|].
  simpl. intros [Hop Hops]%andb_true_iff. destruct op; try done; by apply IH.
Qed.

Lemma forallb_fmap_true {A : Type} (f : A -> PaintOp) (l : list A) :
  (forall x, plainOp (f x) = true) -> forallb plainOp (f <$> l) = true.
Proof.
  intros Hf. induction l as [|x l IH]; [done|].
  rewrite fmap_cons. cbn [forallb]. by rewrite Hf, IH.
Qed.

Lemma fillCurve_neutral (c : QwtPlotCurve) (xMap yMap : QwtScaleMap)
    (polygon : QPolygonF) (d : nat) :
  saveDepth d (fillCurve c xMap yMap polygon) = Some d.
Proof. unfold fillCurve. by repeat case_match. Qed.

Lemma drawCurve_neutral (c : QwtPlotCurve) (painter : QPainter) (st : CurveStyle)
    (xMap yMap : QwtScaleMap) (from to : int) (d : nat) :
  saveDepth d (drawCurve clipPolygonF c painter st xMap yMap from to) = Some d.
Proof.
  destruct st; simpl.
  - done.
  - destruct (if testCurveAttribute c Fitted then _ else _) as [f t].
    rewrite drawLines_ops. case_match; [done|]. cbv zeta. simpl.
    apply fillCurve_neutral.
  - rewrite drawSticks_map. apply saveDepth_plain, forallb_fmap_true.
    intros p. unfold stick. by destruct (orientation c).
  - unfold drawSteps. simpl. case_bool_decide; [done|apply fillCurve_neutral].
  - rewrite drawDots_map. case_match; [done|]. cbv zeta.
    rewrite saveDepth_app, saveDepth_plain by (by apply forallb_fmap_true).
    apply fillCurve_neutral.
Qed.

Lemma drawSymbols_neutral (c : QwtPlotCurve) (s : QwtSymbol)
    (xMap yMap : QwtScaleMap) (from to : int) (d : nat) :
  saveDepth d (drawSymbols c s xMap yMap from to) = Some d.
Proof.
  rewrite drawSymbols_map. simpl. by apply saveDepth_plain, forallb_fmap_true.
Qed.

(** What [drawSeries] sends, by the resolved interval. *)
Lemma drawSeries_intervalOps (c : QwtPlotCurve) (painter : option QPainter)
    (xMap yMap : QwtScaleMap) (canvasRect : QRectF) (from to : int) :
  drawSeries clipPolygonF c painter xMap yMap canvasRect from to
  = match painter with
    | None => []
    | Some p =>
        if dataSize c =? 0 then []
        else intervalOps clipPolygonF c p xMap yMap
               (resolvedRange (dataSize c) from to).1
               (resolvedRange (dataSize c) from to).2
    end.
Proof.
  unfold drawSeries. destruct painter as [p|]; [|done].
  set (s := dataSize c).
  assert (0 <= s) by (unfold s, dataSize; lia).
  destruct (Z.leb_spec s 0), (Z.eqb_spec s 0); try lia; [done|].
  rewrite verifyRange_spec by lia. cbv zeta.
  set (from' := (resolvedRange s from to).1).
  set (to' := (resolvedRange s from to).2).
  change (Z.min _ _) with from'. change (Z.max _ _) with to'.
  pose proof (resolvedRange_bounds s from to ltac:(lia)) as [Hb1 Hb2].
  fold from' to' in Hb1, Hb2.
  case_match eqn:Hn; [reflexivity|].
  apply Z.ltb_ge in Hn. lia.
Qed.

(** X6.  Whatever the painter, the curve, the style and the interval,
    [drawSeries] hands the painter back as it got it: every [restore] it
    sends closes a [save] it has sent before, and none stays open. *)
Theorem drawSeries_balanced (c : QwtPlotCurve) (painter : option QPainter)
    (xMap yMap : QwtScaleMap) (canvasRect : QRectF) (from to : int) :
  balanced (drawSeries clipPolygonF c painter xMap yMap canvasRect from to).
Proof.
  unfold balanced. rewrite drawSeries_intervalOps.
  destruct painter as [p|]; [|done]. case_match; [done|].
  unfold intervalOps. cbn [app saveDepth].
  rewrite saveDepth_app, drawCurve_neutral. cbn [app saveDepth].
  case_bool_decide; [done|]. cbn [app saveDepth].
  by rewrite saveDepth_app, drawSymbols_neutral.
Qed.

(** *** Symbols next to the curve *)

Lemma symbolCount_app (a b : list PaintOp) :
  symbolCount (a ++ b) = (symbolCount a + symbolCount b)%nat.
Proof. unfold symbolCount. by rewrite List.filter_app, length_app. Qed.

Lemma symbolCount_none (ops : list PaintOp) :
  forallb (fun op => negb (isDrawSymbol op)) ops = true -> symbolCount ops = O.
Proof.
  unfold symbolCount. induction ops as [|op ops IH]; [done|].
  simpl. intros [Hop Hops]%andb_true_iff.
  destruct (isDrawSymbol op); [done|by apply IH].
Qed.

Lemma forallb_fmap_no_symbol {A : Type} (f : A -> PaintOp) (l : list A) :
  (forall x, isDrawSymbol (f x) = false) ->
  forallb (fun op => negb (isDrawSymbol op)) (f <$> l) = true.
Proof.
  intros Hf. induction l as [|x l IH]; [done|].
  rewrite fmap_cons. cbn [forallb]. by rewrite Hf, IH.
Qed.

Lemma fillCurve_no_symbol (c : QwtPlotCurve) (xMap yMap : QwtScaleMap)
    (polygon : QPolygonF) :
  symbolCount (fillCurve c xMap yMap polygon) = O.
Proof. unfold fillCurve. by repeat case_match. Qed.

Lemma drawCurve_no_symbol (c : QwtPlotCurve) (painter : QPainter) (st : CurveStyle)
    (xMap yMap : QwtScaleMap) (from to : int) :
  symbolCount (drawCurve clipPolygonF c painter st xMap yMap from to) = O.
Proof.
  destruct st; simpl.
  - done.
  - destruct (if testCurveAttribute c Fitted then _ else _) as [f t].
    rewrite drawLines_ops. case_match; [done|]. cbv zeta.
    apply (fillCurve_no_symbol c xMap yMap).
  - rewrite drawSticks_map. apply symbolCount_none, forallb_fmap_no_symbol.
    intros p. unfold stick. by destruct (orientation c).
  - unfold drawSteps. cbv zeta.
    case_bool_decide; [done|apply (fillCurve_no_symbol c xMap yMap)].
  - rewrite drawDots_map. case_match; [done|]. cbv zeta.
    rewrite symbolCount_app, fillCurve_no_symbol.
    by rewrite symbolCount_none by (by apply forallb_fmap_no_symbol).
Qed.

Lemma drawSymbols_count (c : QwtPlotCurve) (s : QwtSymbol)
    (xMap yMap : QwtScaleMap) (from to : int) :
  symbolCount (drawSymbols c s xMap yMap from to) = Z.to_nat (to - from + 1).
Proof.
  assert (Hall : forall l : QPolygonF,
             length (List.filter isDrawSymbol
                       ((fun p => DrawSymbol s (symbolRect s p)) <$> l))
             = length l).
  { induction l as [|p l IH]; [done|]. rewrite fmap_cons. simpl. by rewrite IH. }
  rewrite drawSymbols_map. unfold symbolCount. simpl.
  by rewrite Hall, length_devicePoints.
Qed.

(** X7.  The symbols do not depend on the style of the curve: for every
    style, [drawSeries] asks for as many symbols as the resolved interval
    has samples if the symbol has a style, and for none if its style is
    [NoSymbol]; no symbol is asked for without a painter or on an empty
    series. *)
Theorem drawSeries_symbol_count (c : QwtPlotCurve) (painter : option QPainter)
    (xMap yMap : QwtScaleMap) (canvasRect : QRectF) (from to : int) :
  symbolCount (drawSeries clipPolygonF c painter xMap yMap canvasRect from to)
  = match painter with
    | None => O
    | Some _ =>
        if dataSize c =? 0 then O
        else if bool_decide (symStyle (symbol c) = NoSymbol) then O
             else Z.to_nat ((resolvedRange (dataSize c) from to).2
                            - (resolvedRange (dataSize c) from to).1 + 1)
    end.
Proof.
  rewrite drawSeries_intervalOps.
  destruct painter as [p|]; [|done]. case_match; [done|].
  unfold intervalOps.
  rewrite !symbolCount_app, drawCurve_no_symbol. case_bool_decide; [done|].
  rewrite !symbolCount_app, drawSymbols_count. simpl. unfold symbolCount. simpl. lia.
Qed.

(** X8.  The two ends of an interval may be given in either order: for
    indices that are not negative, [drawSeries] sends the same requests for
    [from, to] and for [to, from]. *)
Theorem drawSeries_order (c : QwtPlotCurve) (painter : option QPainter)
    (xMap yMap : QwtScaleMap) (canvasRect : QRectF) (from to : int) :
  0 <= from -> 0 <= to ->
  drawSeries clipPolygonF c painter xMap yMap canvasRect from to
  = drawSeries clipPolygonF c painter xMap yMap canvasRect to from.
Proof.
  intros Hf Ht. rewrite !drawSeries_intervalOps.
  assert (Hsym : resolvedRange (dataSize c) from to
                 = resolvedRange (dataSize c) to from).
  { unfold resolvedRange.
    destruct (Z.ltb_spec to 0), (Z.ltb_spec from 0); try lia.
    cbv zeta. by rewrite Z.min_comm, Z.max_comm. }
  by rewrite Hsym.
Qed.

End CurveProperties.

(** *** Attributes *)

Lemma testFlag_lor_same (flags flag : int) :
  flag <> 0 -> PlotCurve.testFlag (Z.lor flags flag) flag = true.
Proof.
  intros Hflag. unfold PlotCurve.testFlag.
  replace (Z.land (Z.lor flags flag) flag) with flag.
  - by destruct (Z.eqb_spec flag 0).
  - apply Z.bits_inj'. intros n Hn. rewrite Z.land_spec, Z.lor_spec.
    by destruct (Z.testbit flags n), (Z.testbit flag n).
Qed.

Lemma testFlag_clear_same (flags flag : int) :
  PlotCurve.testFlag (Z.land flags (Z.lnot flag)) flag = false.
Proof.
  unfold PlotCurve.testFlag.
  replace (Z.land (Z.land flags (Z.lnot flag)) flag) with 0; [done|].
  apply Z.bits_inj'. intros n Hn.
  rewrite !Z.land_spec, Z.lnot_spec, Z.bits_0 by done.
  by destruct (Z.testbit flags n), (Z.testbit flag n).
Qed.

Lemma testFlag_other (flags flag other : int) (on : bool) :
  Z.land flag other = 0 ->
  PlotCurve.testFlag
    (if on then Z.lor flags flag else Z.land flags (Z.lnot flag)) other
  = PlotCurve.testFlag flags other.
Proof.
  intros Hdisjoint. unfold PlotCurve.testFlag. do 2 f_equal.
  apply Z.bits_inj'. intros n Hn.
  assert (Hbit : Z.testbit flag n && Z.testbit other n = false)
    by (by rewrite <- Z.land_spec, Hdisjoint, Z.bits_0).
  destruct on; rewrite !Z.land_spec, ?Z.lor_spec, ?Z.lnot_spec by done;
    by destruct (Z.testbit flags n), (Z.testbit flag n), (Z.testbit other n).
Qed.

(** X9.  Paint and legend attributes are kept as independent flags: after
    [setPaintAttribute(a, on)] the test of [a] answers [on], and the test of
    every flag that shares no bit with [a] answers as before; the same holds
    for [setLegendAttribute].  Neither touches the other set of
    attributes nor the curve attributes. *)
Theorem attribute_flags (c : QwtPlotCurve) (a : int) (on : bool) :
  a <> 0 ->
  testPaintAttribute (setPaintAttribute a on c) a = on
  /\ testLegendAttribute (setLegendAttribute a on c) a = on
  /\ (forall b, Z.land a b = 0 ->
        testPaintAttribute (setPaintAttribute a on c) b = testPaintAttribute c b
        /\ testLegendAttribute (setLegendAttribute a on c) b
           = testLegendAttribute c b)
  /\ (forall b, testLegendAttribute (setPaintAttribute a on c) b
                = testLegendAttribute c b
                /\ testPaintAttribute (setLegendAttribute a on c) b
                   = testPaintAttribute c b
                /\ testCurveAttribute (setPaintAttribute a on c) b
                   = testCurveAttribute c b
                /\ testCurveAttribute (setLegendAttribute a on c) b
                   = testCurveAttribute c b).
Proof.
  intros Ha.
  unfold testPaintAttribute, testLegendAttribute, testCurveAttribute,
    setPaintAttribute, setLegendAttribute. simpl.
  split_and!.
  - destruct on; [by apply testFlag_lor_same|apply testFlag_clear_same].
  - destruct on; [by apply testFlag_lor_same|apply testFlag_clear_same].
  - intros b Hb. split; by apply testFlag_other.
  - done.
Qed.

(** X10.  [setCurveAttribute(a, on)] makes the test of [a] answer [on] and
    leaves the test of every flag that shares no bit with [a] as it was; it
    notifies the plot exactly when the test of [a] answered otherwise
    before, so that a second call with the same arguments changes nothing
    and stays silent. *)
Theorem setCurveAttribute_notifies (c : QwtPlotCurve) (a : int) (on : bool) :
  a <> 0 ->
  let c' := (setCurveAttribute a on c).1 in
  testCurveAttribute c' a = on
  /\ (setCurveAttribute a on c).2 = negb (bool_decide (testCurveAttribute c a = on))
  /\ (forall b, Z.land a b = 0 -> testCurveAttribute c' b = testCurveAttribute c b)
  /\ setCurveAttribute a on c' = (c', false).
Proof.
  intros Ha c'.
  assert (Htest : testCurveAttribute c' a = on).
  { unfold c', setCurveAttribute, testCurveAttribute.
    case_bool_decide as Hsame; simpl; [done|].
    destruct on; [by apply testFlag_lor_same|apply testFlag_clear_same]. }
  split_and!.
  - done.
  - unfold setCurveAttribute, testCurveAttribute. by case_bool_decide.
  - intros b Hb. unfold c', setCurveAttribute, testCurveAttribute.
    case_bool_decide; simpl; [done|]. by apply testFlag_other.
  - unfold setCurveAttribute at 1. unfold testCurveAttribute in Htest.
    by rewrite bool_decide_eq_true_2.
Qed.

(** X11.  [setStyle], [setPen] and [setBrush] store the new value and
    notify the plot exactly when it differs from the current one: the call
    that repeats a value changes nothing and stays silent.  [setBaseline]
    compares binary64 numbers: it stores the new value and notifies exactly
    when [reference != v] holds; it is silent when a value that is not NaN
    is repeated, and it notifies every time a baseline that is NaN is set
    to itself. *)
Theorem setters_notify_changes (c : QwtPlotCurve) (st : CurveStyle) (p : QPen)
    (b : QBrush) (d : Binary64.QwtPlotCurve) (v : PrimFloat.float) :
  (style (setStyle st c).1 = st
   /\ (setStyle st c).2 = negb (bool_decide (st = style c))
   /\ setStyle st (setStyle st c).1 = ((setStyle st c).1, false))
  /\ (pen (setPen p c).1 = p
      /\ (setPen p c).2 = negb (bool_decide (p = pen c))
      /\ setPen p (setPen p c).1 = ((setPen p c).1, false))
  /\ (brush (setBrush b c).1 = b
      /\ (setBrush b c).2 = negb (bool_decide (b = brush c))
      /\ setBrush b (setBrush b c).1 = ((setBrush b c).1, false))
  /\ ((Binary64.setBaseline v d).2
      = negb (PrimFloat.eqb (Binary64.reference d) v)
      /\ ((Binary64.setBaseline v d).2 = true ->
          Binary64.baseline (Binary64.setBaseline v d).1 = v)
      /\ ((Binary64.setBaseline v d).2 = false ->
          (Binary64.setBaseline v d).1 = d)
      /\ (PrimFloat.is_nan v = false ->
          Binary64.setBaseline v (Binary64.setBaseline v d).1
          = ((Binary64.setBaseline v d).1, false))
      /\ (PrimFloat.is_nan (Binary64.reference d) = true ->
          (Binary64.setBaseline (Binary64.reference d) d).2 = true)).
Proof.
  split_and!.
  all: unfold setStyle, setPen, setBrush.
  all: try (repeat (case_bool_decide; simpl); try done; congruence).
  all: unfold Binary64.setBaseline, Binary64.baseline, PrimFloat.is_nan.
  - by destruct (PrimFloat.eqb (Binary64.reference d) v).
  - by destruct (PrimFloat.eqb (Binary64.reference d) v).
  - by destruct (PrimFloat.eqb (Binary64.reference d) v).
  - intros Hv%negb_false_iff.
    destruct (PrimFloat.eqb (Binary64.reference d) v) eqn:Hcmp; simpl.
    + by rewrite Hcmp.
    + by rewrite Hv.
  - intros Hnan. by rewrite Hnan.
Qed.

(** *** Order facts on [double]

    Inequalities between sums, differences and halves are sent to the
    rationals underneath and decided there. *)

Lemma this_plus (a b : double) : (this (a + b)%D == this a + this b)%Q.
Proof. unfold Qcplus, Q2Qc, this. apply Qred_correct. Qed.

Lemma this_opp (a : double) : (this (- a)%D == - this a)%Q.
Proof. unfold Qcopp, Q2Qc, this. apply Qred_correct. Qed.

Lemma this_minus (a b : double) : (this (a - b)%D == this a - this b)%Q.
Proof. unfold Qcminus. rewrite this_plus, this_opp. reflexivity. Qed.

Lemma this_mult (a b : double) : (this (a * b)%D == this a * this b)%Q.
Proof. unfold Qcmult, Q2Qc, this. apply Qred_correct. Qed.

Lemma this_half (a : double) : (this (a / 2)%D == this a * (1 # 2))%Q.
Proof.
  unfold Qcdiv, Qcmult, Qcinv, double_of_int, Q2Qc, this.
  rewrite !Qred_correct. reflexivity.
Qed.

Lemma this_int (z : int) : (this (double_of_int z) == inject_Z z)%Q.
Proof. unfold double_of_int, Q2Qc, this. apply Qred_correct. Qed.

Lemma this_Q2Qc (q : Q) : (this (Q2Qc q) == q)%Q.
Proof. unfold Q2Qc, this. apply Qred_correct. Qed.

Ltac double_order :=
  unfold Qcle, Qclt in *;
  repeat (rewrite ?this_plus, ?this_minus, ?this_opp, ?this_mult, ?this_half,
            ?this_int, ?this_Q2Qc in * );
  unfold inject_Z in *; lra.

Lemma qMin_le_l (a b : double) : (qMin a b <= a)%Qc.
Proof.
  unfold qMin. destruct (a <? b)%D eqn:Hcmp; [apply Qcle_refl|by apply ltb_ge].
Qed.

Lemma qMin_le_r (a b : double) : (qMin a b <= b)%Qc.
Proof.
  unfold qMin. destruct (a <? b)%D eqn:Hcmp; [|apply Qcle_refl].
  by apply Qclt_le_weak, ltb_lt.
Qed.

Lemma qMin_pos (a b : double) : (0 < a)%Qc -> (0 < b)%Qc -> (0 < qMin a b)%Qc.
Proof. intros Ha Hb. unfold qMin. by destruct (a <? b)%D. Qed.

(** Cutting a [double] that is not negative to an [int] does not make it
    larger, and does not make it negative. *)
Lemma int_of_double_le (d : double) :
  (0 <= d)%Qc ->
  (0 <= double_of_int (int_of_double d))%Qc
  /\ (double_of_int (int_of_double d) <= d)%Qc.
Proof.
  intros Hd. unfold Qcle in *. rewrite !this_int.
  unfold int_of_double. destruct (this d) as [n m]. unfold Qle in *. simpl in *.
  assert (0 <= n) by lia.
  rewrite Z.quot_div_nonneg by lia.
  pose proof (Z.div_pos n (Z.pos m) ltac:(lia) ltac:(lia)).
  pose proof (Z.mul_div_le n (Z.pos m) ltac:(lia)). lia.
Qed.

(** *** The legend glyph *)

Lemma testFlag_zero (flag : int) : PlotCurve.testFlag 0 flag = false.
Proof. unfold PlotCurve.testFlag. by rewrite Z.land_0_l. Qed.

(** X12.  When no legend attribute is set, [drawLegendIdentifier] fills at
    most one rectangle, the glyph square: with the brush of the curve if it
    has one, else with the colour of the pen if the curve has a style, else
    with the colour of the pen of the symbol if there is a symbol, and
    nothing otherwise.  An empty legend rectangle gets nothing, whatever
    the attributes. *)
Theorem legend_default_glyph (c : QwtPlotCurve) (rect : QRectF) :
  (Rect.isEmpty rect = true -> drawLegendIdentifier c rect = [])
  /\ (legendAttributes c = 0 ->
      drawLegendIdentifier c rect
      = if Rect.isEmpty rect then []
        else match defaultGlyphBrush c with
             | Some b => [FillRect (glyphRect rect) b]
             | None => []
             end).
Proof.
  split.
  - intros Hempty. unfold drawLegendIdentifier. by rewrite Hempty.
  - intros Hnone. unfold drawLegendIdentifier. rewrite Hnone, !testFlag_zero.
    destruct (Rect.isEmpty rect); [done|]. cbv zeta. simpl.
    rewrite !app_nil_r. unfold defaultGlyphBrush, glyphRect.
    destruct (brush c) as [bs bc] eqn:Hbrush. simpl.
    destruct bs; simpl; try done.
    repeat (case_bool_decide; simpl); done.
Qed.

Lemma double_of_int_order (a b : int) :
  ((double_of_int a <= double_of_int b)%Qc -> a <= b)
  /\ ((double_of_int a < double_of_int b)%Qc -> a < b).
Proof.
  unfold Qcle, Qclt. rewrite !this_int. unfold Qle, Qlt. simpl. lia.
Qed.

(** X13.  Every rectangle that [drawLegendIdentifier] fills is the glyph
    square.  For a legend rectangle of positive width and height whose
    smaller side is below 2^31, the side of this square is an [int] between
    0 and 2^31, and the square has the centre of the legend rectangle and
    lies inside it. *)
Theorem legend_glyph_inside (c : QwtPlotCurve) (rect : QRectF) :
  Rect.isValid rect = true ->
  (qMin (Rect.width rect) (Rect.height rect) < double_of_int (2 ^ 31))%Qc ->
  (forall r b, FillRect r b ∈ drawLegendIdentifier c rect -> r = glyphRect rect)
  /\ 0 <= int_of_double (qMin (Rect.width rect) (Rect.height rect)) < 2 ^ 31
  /\ Rect.center (glyphRect rect) = Rect.center rect
  /\ Rect.width (glyphRect rect) = Rect.height (glyphRect rect)
  /\ (Rect.left rect <= Rect.left (glyphRect rect))%Qc
  /\ (Rect.right (glyphRect rect) <= Rect.right rect)%Qc
  /\ (Rect.top rect <= Rect.top (glyphRect rect))%Qc
  /\ (Rect.bottom (glyphRect rect) <= Rect.bottom rect)%Qc.
Proof.
  intros [Hw Hh]%andb_true_iff Hint. apply ltb_lt in Hw, Hh.
  assert (Hfill : forall r b,
             FillRect r b ∈ drawLegendIdentifier c rect -> r = glyphRect rect).
  { assert (Hall : Forall (fun op => forall r b, op = FillRect r b -> r = glyphRect rect)
                       (drawLegendIdentifier c rect)).
    { unfold drawLegendIdentifier. fold (glyphRect rect).
      case_match; [constructor|]. cbv zeta. rewrite !Forall_app.
      split_and!; repeat case_match; repeat constructor;
        intros r b Heq; by simplify_eq. }
    intros r b Hin. rewrite Forall_forall in Hall. by eapply Hall. }
  pose proof (qMin_pos _ _ Hw Hh) as Hmin.
  destruct (int_of_double_le (qMin (Rect.width rect) (Rect.height rect))
              (Qclt_le_weak _ _ Hmin)) as [Hdim0 Hdim].
  assert (Hrange : 0 <= int_of_double (qMin (Rect.width rect) (Rect.height rect))
                   < 2 ^ 31).
  { split.
    - by apply double_of_int_order.
    - apply double_of_int_order. by eapply Qcle_lt_trans. }
  pose proof (qMin_le_l (Rect.width rect) (Rect.height rect)) as Hl.
  pose proof (qMin_le_r (Rect.width rect) (Rect.height rect)) as Hr.
  unfold glyphRect. set (dim := double_of_int (int_of_double _)) in *.
  destruct rect as [x y wd ht].
  unfold Rect.center, Rect.moveCenter, Rect.left, Rect.right, Rect.top,
    Rect.bottom, Rect.width, Rect.height in *. simpl in *.
  split_and!; [done|lia|lia| |done|..].
  - f_equal; ring.
  - double_order.
  - double_order.
  - double_order.
  - double_order.
Qed.


(** ** Further properties of the column symbol *)

Section ColumnExtras.
Import ColumnSymbol.
Variable subtracted : QPolygonF -> QPolygonF -> QPolygonF.

Lemma operator_eq_true (a b : QwtColumnSymbol) :
  operator_eq a b = true
  <-> style a = style b /\ palette a = palette b /\ label a = label b
      /\ lineWidth a = lineWidth b /\ frameStyle a = frameStyle b.
Proof.
  unfold operator_eq.
  rewrite !andb_true_iff, !bool_decide_eq_true, Z.eqb_eq. tauto.
Qed.

(** X14.  [operator==] is an equivalence: every symbol equals itself, and
    the comparison is symmetric and transitive. *)
Theorem operator_eq_equivalence (a b c : QwtColumnSymbol) :
  operator_eq a a = true
  /\ operator_eq a b = operator_eq b a
  /\ (operator_eq a b = true -> operator_eq b c = true -> operator_eq a c = true).
Proof.
  split_and!.
  - by apply operator_eq_true.
  - apply eq_true_iff_eq. rewrite !operator_eq_true. intuition congruence.
  - rewrite !operator_eq_true. intuition congruence.
Qed.

(** X15.  Two symbols that compare equal are drawn alike: on every column
    [draw] sends the same requests for both. *)
Theorem equal_symbols_draw_alike (a b : QwtColumnSymbol) (rect : QwtColumnRect) :
  operator_eq a b = true ->
  draw subtracted a rect = draw subtracted b rect.
Proof.
  intros (Hs & Hp & _ & Hw & Hf)%operator_eq_true.
  unfold draw, symbolDrawBox. by rewrite Hs, Hp, Hw, Hf.
Qed.

Lemma double_of_int_nonpos (z : int) : z <= 0 -> (0 <? double_of_int z)%D = false.
Proof.
  intros Hz. apply ltb_ge. unfold Qcle. rewrite !this_int.
  unfold Qle. simpl. lia.
Qed.

Lemma windowRect_zero (r : QRectF) :
  windowRect r 0%D = Rect.adjusted 0 0 1 1 r.
Proof.
  unfold windowRect.
  by replace (- 0 + 1)%D with (double_of_int 1) by (by apply Qc_is_canon).
Qed.

(** X16.  With a line width of 0 no frame is drawn.  The [Raised] style
    fills one rectangle in the window tone, the rectangle of the column
    (after the border adjustment) made one unit wider and one unit higher;
    the [Plain] style fills the same rectangle if its width and height are
    positive, and sends nothing otherwise. *)
Theorem zero_line_width_fill (s : QwtColumnSymbol) (rect : QwtColumnRect) :
  lineWidth s = 0 ->
  (frameStyle s = Raised ->
   symbolDrawBox subtracted s rect
   = [FillRect (Rect.adjusted 0 0 1 1 (borderRect rect)) (window (palette s))])
  /\ (frameStyle s = Plain ->
      symbolDrawBox subtracted s rect
      = if Rect.isValid (Rect.adjusted 0 0 1 1 (borderRect rect))
        then [FillRect (Rect.adjusted 0 0 1 1 (borderRect rect))
                (window (palette s))]
        else []).
Proof.
  intros Hlw. split; intros Hf; unfold symbolDrawBox, drawPanel, drawBox;
    rewrite Hf, Hlw, double_of_int_nonpos by lia; by rewrite windowRect_zero.
Qed.

Lemma eqb_false (a b : double) : a <> b -> (a =? b)%D = false.
Proof. intros Hne. unfold eqb. by apply bool_decide_eq_false_2. Qed.

Lemma frameWidth_bounds (rect : QRectF) (lw : double) :
  (frameWidth rect lw <= lw)%Qc
  /\ (frameWidth rect lw <= Rect.height rect / 2 - 1)%Qc
  /\ (frameWidth rect lw <= Rect.width rect / 2 - 1)%Qc.
Proof.
  unfold frameWidth.
  pose proof (qMin_le_l (qMin lw (Rect.height rect / 2 - 1)%D)
                (Rect.width rect / 2 - 1)%D) as H1.
  pose proof (qMin_le_r (qMin lw (Rect.height rect / 2 - 1)%D)
                (Rect.width rect / 2 - 1)%D) as H2.
  pose proof (qMin_le_l lw (Rect.height rect / 2 - 1)%D) as H3.
  pose proof (qMin_le_r lw (Rect.height rect / 2 - 1)%D) as H4.
  split_and!; [|by apply Qcle_trans with (qMin lw (Rect.height rect / 2 - 1)%D)|done].
  by apply Qcle_trans with (qMin lw (Rect.height rect / 2 - 1)%D).
Qed.

Lemma windowRect_inner (rect : QRectF) (lw : double) :
  windowRect rect (frameWidth rect lw) = innerRect rect lw.
Proof.
  unfold windowRect, innerRect, outerRect, Rect.adjusted. simpl.
  change (double_of_int 0) with 0%Qc. change (double_of_int 1) with 1%Qc.
  f_equal; ring.
Qed.

Lemma innerRect_size (rect : QRectF) (lw : double) :
  (double_of_int 3 <= Rect.width (innerRect rect lw))%Qc
  /\ (double_of_int 3 <= Rect.height (innerRect rect lw))%Qc.
Proof.
  destruct (frameWidth_bounds rect lw) as (_ & Hh & Hw).
  unfold innerRect, outerRect, Rect.adjusted, Rect.width, Rect.height in *.
  simpl in *. split; double_order.
Qed.

(** X17.  For a positive line width and a rectangle whose width and height
    are not 0, both frame painters work with the line width limited by half
    the height and half the width less one.  The [Plain] painter always
    draws the ring between the outer rectangle (one unit wider and higher
    than the rectangle) and the inner one in the dark tone, the [Raised]
    painter a light and a dark polygon of six corners each around the inner
    rectangle; both then fill exactly the inner rectangle in the window
    tone, and this rectangle is at least 3 units wide and 3 units high. *)
Theorem frame_ring_and_window (rect : QRectF) (pal : QPalette) (lw : double) :
  (0 < lw)%Qc -> Rect.width rect <> 0%D -> Rect.height rect <> 0%D ->
  let outer := outerRect rect in
  let inner := innerRect rect lw in
  drawBox subtracted rect pal lw
  = [SetPen (QPen_of_style NoPen); SetBrush (dark pal);
     DrawPolygon (subtracted (Rect.toPolygon outer) (Rect.toPolygon inner));
     FillRect inner (window pal)]
  /\ drawPanel rect pal lw
     = [SetPen (QPen_of_style NoPen);
        SetBrush (light pal);
        DrawPolygon [Rect.bottomLeft outer; Rect.topLeft outer; Rect.topRight outer;
                     Rect.topRight inner; Rect.topLeft inner; Rect.bottomLeft inner];
        SetBrush (dark pal);
        DrawPolygon [Rect.topRight outer; Rect.bottomRight outer;
                     Rect.bottomLeft outer; Rect.bottomLeft inner;
                     Rect.bottomRight inner; Rect.topRight inner];
        FillRect inner (window pal)]
  /\ (double_of_int 3 <= Rect.width inner)%Qc
  /\ (double_of_int 3 <= Rect.height inner)%Qc
  /\ (frameWidth rect lw <= lw)%Qc.
Proof.
  intros Hlw Hw Hh outer inner.
  destruct (innerRect_size rect lw) as [Hiw Hih]. fold inner in Hiw, Hih.
  destruct (frameWidth_bounds rect lw) as (Hle & Hfh & Hfw).
  split_and!; [| |done..].
  - unfold drawBox. rewrite (proj2 (ltb_lt _ _) Hlw), !eqb_false by done.
    fold (frameWidth rect lw). cbv zeta.
    rewrite windowRect_inner. fold inner.
    change (Rect.adjusted 0 0 1 1 rect)%D with outer.
    change (Rect.adjusted _ _ _ _ outer) with inner.
    assert (Hring : (2 * frameWidth rect lw <? Rect.width outer)%D
                    && (2 * frameWidth rect lw <? Rect.height outer)%D = true).
    { apply andb_true_iff. split; apply ltb_lt;
        unfold outer, outerRect, Rect.adjusted, Rect.width, Rect.height in *;
        simpl in *; double_order. }
    rewrite Hring.
    assert (Hvalid : Rect.isValid inner = true).
    { apply andb_true_iff. split; apply ltb_lt;
        unfold Rect.width, Rect.height in *; double_order. }
    by rewrite Hvalid.
  - unfold drawPanel. rewrite (proj2 (ltb_lt _ _) Hlw), !eqb_false by done.
    fold (frameWidth rect lw). cbv zeta.
    by rewrite windowRect_inner.
Qed.

(** X18.  For a positive line width, a rectangle without width or without
    height is drawn as one line and nothing else.  The [Raised] painter
    draws it in the window tone: along the left edge when the width is 0,
    along the top edge when only the height is 0.  The [Plain] painter draws
    the line along the top edge, in the dark tone, when only the height is
    0. *)
Theorem degenerate_frames (rect : QRectF) (pal : QPalette) (lw : double) :
  (0 < lw)%Qc ->
  (Rect.width rect = 0%D ->
   drawPanel rect pal lw
   = [SetPen (QPen_of_color (brushColor (window pal)));
      DrawLine (Rect.topLeft rect) (Rect.bottomLeft rect)])
  /\ (Rect.width rect <> 0%D -> Rect.height rect = 0%D ->
      drawPanel rect pal lw
      = [SetPen (QPen_of_color (brushColor (window pal)));
         DrawLine (Rect.topLeft rect) (Rect.topRight rect)]
      /\ drawBox subtracted rect pal lw
         = [SetPen (QPen_of_color (brushColor (dark pal)));
            DrawLine (Rect.topLeft rect) (Rect.topRight rect)]).
Proof.
  intros Hlw%ltb_lt. split.
  - intros Hw. unfold drawPanel. rewrite Hlw, Hw. unfold eqb.
    by rewrite bool_decide_eq_true_2.
  - intros Hw Hh. unfold drawPanel, drawBox.
    rewrite Hlw. rewrite !(eqb_false (Rect.width rect)) by done.
    rewrite Hh. unfold eqb. by rewrite bool_decide_eq_true_2.
Qed.

Lemma frame_ops_plain (s : QwtColumnSymbol) (rect : QwtColumnRect) :
  forallb plainOp (symbolDrawBox subtracted s rect) = true.
Proof.
  unfold symbolDrawBox, drawPanel, drawBox. by repeat case_match.
Qed.

(** X19.  [draw] hands the painter back as it got it: whatever it paints
    lies between one [save] and one [restore], and for a style other than
    [Box] nothing is painted between them. *)
Theorem column_draw_balanced (s : QwtColumnSymbol) (rect : QwtColumnRect) :
  balanced (draw subtracted s rect)
  /\ (exists ops, draw subtracted s rect = [Save] ++ ops ++ [Restore]
                  /\ forallb plainOp ops = true)
  /\ (style s <> Box -> draw subtracted s rect = [Save; Restore]).
Proof.
  split_and!.
  - unfold balanced, draw. cbn [app saveDepth]. rewrite saveDepth_app.
    destruct (style s); try done.
    by rewrite saveDepth_plain by apply frame_ops_plain.
  - unfold draw. eexists; split; [done|].
    destruct (style s); try done. apply frame_ops_plain.
  - intros Hs. unfold draw. by destruct (style s).
Qed.

End ColumnExtras.

(** ** Further instances *)

Section FurtherInstances.
Import Examples ColumnSymbol.

(** Three points under a gray brush are closed along the baseline and
    filled. *)
Lemma fillCurve_closed_polygon_witness :
  brushStyle (brush (curve Lines grayBrush 0 0 threePoints)) <> NoBrush
  /\ (2 <= length threePoints)%nat
  /\ fillCurve (curve Lines grayBrush 0 0 threePoints) identityMap identityMap
       threePoints
     = [Save; SetPen (QPen_of_style NoPen); SetBrush grayBrush;
        DrawPolygon (threePoints ++ [pt 5 0; pt 1 0]); Restore].
Proof.
  assert (H1 : brushStyle (brush (curve Lines grayBrush 0 0 threePoints)) <> NoBrush)
    by done.
  assert (H2 : (2 <= length threePoints)%nat) by (simpl; lia).
  split_and!; [done|done|].
  exact (proj2 (proj2 (fillCurve_closed_polygon
                          (curve Lines grayBrush 0 0 threePoints)
                          identityMap identityMap threePoints) H1 H2)).
Defined.

(** The first segment of the staircase through three samples of a vertical
    curve is vertical. *)
Lemma steps_axis_parallel_witness :
  0 <= 2
  /\ stepsPolygon (curve Steps QBrush_default 0 0 threePoints)
       identityMap identityMap 0 2 !! 0%nat = Some (pt 1 2)
  /\ stepsPolygon (curve Steps QBrush_default 0 0 threePoints)
       identityMap identityMap 0 2 !! 1%nat = Some (pt 1 4)
  /\ px (pt 1 2) = px (pt 1 4).
Proof.
  assert (H0 : 0 <= 2) by lia.
  assert (H1 : stepsPolygon (curve Steps QBrush_default 0 0 threePoints)
                 identityMap identityMap 0 2 !! 0%nat = Some (pt 1 2))
    by reflexivity.
  assert (H2 : stepsPolygon (curve Steps QBrush_default 0 0 threePoints)
                 identityMap identityMap 0 2 !! 1%nat = Some (pt 1 4))
    by reflexivity.
  split_and!; [done..|].
  exact (steps_axis_parallel (curve Steps QBrush_default 0 0 threePoints)
           identityMap identityMap 0 2 0 (pt 1 2) (pt 1 4) H0 H1 H2).
Defined.

(** The interval from 2 down to 0 is drawn like the one from 0 to 2. *)
Lemma drawSeries_order_witness :
  0 <= 2 /\ 0 <= 0
  /\ drawSeries noClip (curve Sticks QBrush_default 0 0 threePoints)
       (Some painter100) identityMap identityMap legendRect 2 0
     = drawSeries noClip (curve Sticks QBrush_default 0 0 threePoints)
         (Some painter100) identityMap identityMap legendRect 0 2.
Proof.
  split_and!; [lia|lia|].
  apply (drawSeries_order noClip); lia.
Defined.

(** Clipping switched off on a curve that had it. *)
Lemma attribute_flags_witness :
  ClipPolygons <> 0
  /\ testPaintAttribute
       (setPaintAttribute ClipPolygons false
          (curve Lines QBrush_default 0 ClipPolygons threePoints))
       ClipPolygons
     = false.
Proof.
  assert (H : ClipPolygons <> 0) by done.
  split; [done|].
  exact (proj1 (attribute_flags
                  (curve Lines QBrush_default 0 ClipPolygons threePoints)
                  ClipPolygons false H)).
Defined.

(** Fitting switched on. *)
Lemma setCurveAttribute_notifies_witness :
  Fitted <> 0
  /\ testCurveAttribute
       (setCurveAttribute Fitted true
          (curve Lines QBrush_default 0 0 threePoints)).1
       Fitted
     = true.
Proof.
  assert (H : Fitted <> 0) by done.
  split; [done|].
  exact (proj1 (setCurveAttribute_notifies
                  (curve Lines QBrush_default 0 0 threePoints) Fitted true H)).
Defined.

(** A curve with a gray brush and no legend attribute, in a legend
    rectangle of 64 x 8. *)
Lemma legend_default_glyph_witness :
  legendAttributes (curve Lines grayBrush 0 0 threePoints) = 0
  /\ drawLegendIdentifier (curve Lines grayBrush 0 0 threePoints) legendRect
     = [FillRect (glyphRect legendRect) grayBrush].
Proof.
  split; [done|].
  exact (proj2 (legend_default_glyph (curve Lines grayBrush 0 0 threePoints)
                  legendRect) eq_refl).
Defined.

Lemma legend_glyph_inside_witness :
  Rect.isValid legendRect = true
  /\ (qMin (Rect.width legendRect) (Rect.height legendRect)
      < double_of_int (2 ^ 31))%Qc
  /\ Rect.center (glyphRect legendRect) = Rect.center legendRect.
Proof.
  assert (H1 : Rect.isValid legendRect = true) by reflexivity.
  assert (H2 : (qMin (Rect.width legendRect) (Rect.height legendRect)
                < double_of_int (2 ^ 31))%Qc) by reflexivity.
  split_and!; [done|done|].
  exact (proj1 (proj2 (proj2 (legend_glyph_inside
                                (curve Lines grayBrush 0 0 threePoints)
                                legendRect H1 H2)))).
Defined.

(** A baseline of 2 set twice: the second call is silent. *)
Lemma setters_notify_changes_witness :
  PrimFloat.is_nan (Binary64.double_of_int 2) = false
  /\ Binary64.setBaseline (Binary64.double_of_int 2)
       (Binary64.setBaseline (Binary64.double_of_int 2) farCurve).1
     = ((Binary64.setBaseline (Binary64.double_of_int 2) farCurve).1, false).
Proof.
  assert (H : PrimFloat.is_nan (Binary64.double_of_int 2) = false) by reflexivity.
  split; [done|].
  destruct (setters_notify_changes (curve Lines QBrush_default 0 0 threePoints)
              Lines solidPen grayBrush farCurve (Binary64.double_of_int 2))
    as (_ & _ & _ & _ & _ & _ & Hrepeat & _).
  exact (Hrepeat H).
Defined.

Lemma operator_eq_equivalence_witness :
  operator_eq (box Raised 2) (setLineWidth 2 (box Raised 3)) = true
  /\ operator_eq (setLineWidth 2 (box Raised 3)) (box Raised 2) = true
  /\ operator_eq (box Raised 2) (box Raised 2) = true.
Proof.
  assert (H1 : operator_eq (box Raised 2) (setLineWidth 2 (box Raised 3)) = true)
    by reflexivity.
  assert (H2 : operator_eq (setLineWidth 2 (box Raised 3)) (box Raised 2) = true)
    by reflexivity.
  split_and!; [done|done|].
  exact (proj2 (proj2 (operator_eq_equivalence (box Raised 2)
                          (setLineWidth 2 (box Raised 3)) (box Raised 2)))
           H1 H2).
Defined.

Lemma equal_symbols_draw_alike_witness :
  operator_eq (box Raised 2) (setLineWidth 2 (box Raised 3)) = true
  /\ draw ring (box Raised 2) borderColumn
     = draw ring (setLineWidth 2 (box Raised 3)) borderColumn.
Proof.
  split; [reflexivity|].
  apply (equal_symbols_draw_alike ring). reflexivity.
Defined.

Lemma zero_line_width_fill_witness :
  lineWidth (box Raised 0) = 0
  /\ frameStyle (box Raised 0) = Raised
  /\ symbolDrawBox ring (box Raised 0) borderColumn
     = [FillRect (Rect.adjusted 0 0 1 1 (borderRect borderColumn)) grayBrush].
Proof.
  split_and!; [reflexivity|reflexivity|].
  exact (proj1 (zero_line_width_fill ring (box Raised 0) borderColumn eq_refl)
           eq_refl).
Defined.

(** A frame of line width 2 on the rectangle of 10 x 20. *)
Lemma frame_ring_and_window_witness :
  (0 < double_of_int 2)%Qc
  /\ Rect.width (toRect borderColumn) <> 0%D
  /\ Rect.height (toRect borderColumn) <> 0%D
  /\ (frameWidth (toRect borderColumn) (double_of_int 2) <= double_of_int 2)%Qc.
Proof.
  assert (H1 : (0 < double_of_int 2)%Qc) by reflexivity.
  assert (H2 : Rect.width (toRect borderColumn) <> 0%D)
    by (apply (bool_decide_unpack _); vm_compute; exact I).
  assert (H3 : Rect.height (toRect borderColumn) <> 0%D)
    by (apply (bool_decide_unpack _); vm_compute; exact I).
  split_and!; [done..|].
  exact (proj2 (proj2 (proj2 (proj2 (frame_ring_and_window ring
                                        (toRect borderColumn) grayPalette
                                        (double_of_int 2) H1 H2 H3))))).
Defined.

(** A raised frame of line width 2 on a rectangle without height. *)
Lemma degenerate_frames_witness :
  (0 < double_of_int 2)%Qc
  /\ Rect.width flatRect <> 0%D
  /\ Rect.height flatRect = 0%D
  /\ drawPanel flatRect grayPalette (double_of_int 2)
     = [SetPen (QPen_of_color (mkQColor true 128));
        DrawLine (Rect.topLeft flatRect) (Rect.topRight flatRect)].
Proof.
  assert (H1 : (0 < double_of_int 2)%Qc) by reflexivity.
  assert (H2 : Rect.width flatRect <> 0%D)
    by (apply (bool_decide_unpack _); vm_compute; exact I).
  split_and!; [done|done|reflexivity|].
  exact (proj1 (proj2 (degenerate_frames ring flatRect grayPalette
                         (double_of_int 2) H1) H2 eq_refl)).
Defined.

Lemma column_draw_balanced_witness :
  style (setStyle NoStyle (box Raised 2)) <> Box
  /\ draw ring (setStyle NoStyle (box Raised 2)) borderColumn = [Save; Restore].
Proof.
  assert (H : style (setStyle NoStyle (box Raised 2)) <> Box) by done.
  split; [done|].
  exact (proj2 (proj2 (column_draw_balanced ring (setStyle NoStyle (box Raised 2))
                          borderColumn)) H).
Defined.

End FurtherInstances.
